(** * NetStatWiz: connection parsing, filtering, geolocation cache, aggregation

    A shallow embedding of [NetStatWiz.py].  A Python [str] is the list of
    its code points.  What the program takes from the interpreter rather
    than from its own text is a parameter: the classification of the
    non-ASCII code points by the Unicode database, which the pattern's
    [\s], [\d], [\w] and [int] consult, and the ceiling that [int] puts on
    the number of digits of a literal.  Python [int]s are [Z].  The
    dictionary [ip_locations] is a [gmap] together with the order in which
    its keys were inserted, [port_services] is a [gmap].  The effects of the
    program (sleeping, HTTP requests, writing files) are recorded in an
    explicit state; the provider, [folium] and the file system are oracles:
    every way they can behave is an input.  Console output is left out. *)

From Stdlib Require Import ZArith NArith Ascii String List Bool Lia Floats.
From stdpp Require Import base option list gmap fin_maps sorting.

Local Open Scope Z_scope.

(** A Python [str]: its code points. *)
Abbreviation str := (list N).

(** The [str] of an ASCII literal. *)
Definition txt (s : string) : str := N_of_ascii <$> list_ascii_of_string s.
Arguments txt s%_string.

(** ** The interpreter's part *)

(** The value of a decimal digit. *)
Inductive digit := d0 | d1 | d2 | d3 | d4 | d5 | d6 | d7 | d8 | d9.

Definition digit_value (d : digit) : Z :=
  match d with
  | d0 => 0 | d1 => 1 | d2 => 2 | d3 => 3 | d4 => 4
  | d5 => 5 | d6 => 6 | d7 => 7 | d8 => 8 | d9 => 9
  end.

Definition digit_of_N (n : N) : digit :=
  match n with
  | 0 => d0 | 1 => d1 | 2 => d2 | 3 => d3 | 4 => d4
  | 5 => d5 | 6 => d6 | 7 => d7 | 8 => d8 | _ => d9
  end%N.

(** How the Unicode database classifies a code point, as far as [\s], [\d],
    [\w] and [int] can tell: white space ([str.isspace]), a decimal digit
    with its value ([str.isdecimal]), another alphanumeric character
    ([str.isalnum]), or none of these.  No code point is in two classes. *)
Inductive uclass :=
  | USpace
  | UDecimal (d : digit)
  | UAlnum
  | UOther.

(** The interpreter: the class of every code point from 128 on, and
    [sys.get_int_max_str_digits()], where 0 stands for no ceiling. *)
Record interpreter := Interpreter {
  unicode : N -> uclass;
  max_str_digits : nat
}.

(** ** Text primitives *)

Module Text.

(** The classes of the ASCII code points: TAB, LF, VT, FF, CR, the
    separators 0x1c-0x1f and the space; the ten digits; the letters. *)
Definition ascii_class (c : N) : uclass :=
  if (((9 <=? c) && (c <=? 13)) || ((28 <=? c) && (c <=? 32)))%N then USpace
  else if ((48 <=? c) && (c <=? 57))%N then UDecimal (digit_of_N (c - 48))
  else if (((65 <=? c) && (c <=? 90)) || ((97 <=? c) && (c <=? 122)))%N then UAlnum
  else UOther.

(** [Py_ISSPACE] of the C parser of [int]: TAB, LF, VT, FF, CR, space. *)
Definition c_isspace (c : N) : bool :=
  (((9 <=? c) && (c <=? 13)) || (c =? 32))%N.

(** An ASCII digit. *)
Definition c_isdigit (c : N) : bool := ((48 <=? c) && (c <=? 57))%N.

(** [s.split(sep)] for a one-character separator: never an empty list. *)
Fixpoint split (sep : N) (s : str) : list str :=
  match s with
  | [] => [[]]
  | c :: r =>
      if (c =? sep)%N then [] :: split sep r
      else match split sep r with
           | [] => [[c]]
           | p :: ps => (c :: p) :: ps
           end
  end.

(** The longest prefix of [s] whose characters satisfy [p], and the rest. *)
Fixpoint span (p : N -> bool) (s : str) : str * str :=
  match s with
  | [] => ([], [])
  | c :: r =>
      if p c then let '(a, b) := span p r in (c :: a, b)
      else ([], s)
  end.

Definition lstrip (s : str) : str := snd (span c_isspace s).

Fixpoint rstrip (s : str) : str :=
  match s with
  | [] => []
  | c :: r =>
      match rstrip r with
      | [] => if c_isspace c then [] else [c]
      | r' => c :: r'
      end
  end.

Definition strip (s : str) : str := rstrip (lstrip s).

(** The digits of a decimal literal, where single underscores may separate
    digits: its value and the number of its digits.  [seen] tells whether
    the previous character was a digit. *)
Fixpoint int_digits (acc : Z) (count : nat) (seen : bool) (s : str)
  : option (Z * nat) :=
  match s with
  | [] => if seen then Some (acc, count) else None
  | c :: r =>
      if c_isdigit c then int_digits (10 * acc + (Z.of_N c - 48)) (S count) true r
      else if (c =? 95)%N then
             if seen then int_digits acc count false r else None
      else None
  end.

Section WithInterpreter.

Variable py : interpreter.

Definition classify (c : N) : uclass :=
  if (c <? 128)%N then ascii_class c else unicode py c.

(** [\s] of a [str] pattern. *)
Definition is_space (c : N) : bool :=
  match classify c with USpace => true | _ => false end.

(** The value of a decimal digit, if [c] is one. *)
Definition decimal (c : N) : option Z :=
  match classify c with UDecimal d => Some (digit_value d) | _ => None end.

(** [\d] of a [str] pattern. *)
Definition is_digit (c : N) : bool :=
  match classify c with UDecimal _ => true | _ => false end.

(** [\w] of a [str] pattern: alphanumeric, or the underscore. *)
Definition is_word (c : N) : bool :=
  match classify c with
  | UDecimal _ | UAlnum => true
  | USpace | UOther => (c =? 95)%N
  end.

(** What [int] makes of one character of a [str] that is not ASCII: a code
    point below 127 as it is, white space a space, a decimal digit its ASCII
    digit; any other character ends the conversion ([None]). *)
Definition ascii_of (c : N) : option N :=
  if (c <? 127)%N then Some c
  else match classify c with
       | USpace => Some 32%N
       | UDecimal d => Some (48 + Z.to_N (digit_value d))%N
       | UAlnum | UOther => None
       end.

(** What [int] hands to its C parser: an ASCII [str] as it is, any other
    one character by character. *)
Definition to_ascii (s : str) : option str :=
  if forallb (fun c => (c <? 128)%N) s then Some s
  else mapM ascii_of s.

(** The ceiling on the digits of a literal, checked above 640 digits. *)
Definition over_limit (digits : nat) : bool :=
  Nat.ltb 640 digits && Nat.ltb 0 (max_str_digits py)
  && Nat.ltb (max_str_digits py) digits.

Definition checked (r : Z * nat) : option Z :=
  if over_limit (snd r) then None else Some (fst r).

(** [int(s)] on a [str]: surrounding white space is dropped, one sign is
    allowed, then a decimal literal within the ceiling.  [None] stands for
    [ValueError]. *)
Definition py_int (s : str) : option Z :=
  a ← to_ascii s;
  match strip a with
  | [] => None
  | c :: r =>
      if (c =? 43)%N then int_digits 0 0 false r ≫= checked
      else if (c =? 45)%N then Z.opp <$> (int_digits 0 0 false r ≫= checked)
      else int_digits 0 0 false (c :: r) ≫= checked
  end.

(** A non-empty run of characters of one class. *)
Definition run_of (p : N -> bool) (s : str) : bool :=
  match s with [] => false | _ => forallb p s end.

(** A non-empty run of digits: what [\d+] captures. *)
Definition digit_run (s : str) : bool := run_of is_digit s.

(** The number that a run of digits writes. *)
Definition run_value (s : str) : Z :=
  fold_left (fun acc c => 10 * acc + default 0 (decimal c)) s 0.

End WithInterpreter.

End Text.

(** An interpreter that knows no character beyond ASCII, with the default
    ceiling of 4300 digits. *)
Definition plain : interpreter := Interpreter (fun _ => UOther) 4300.

(** An interpreter with a few non-ASCII characters: the no-break space, the
    Arabic-Indic digits and the letters of Latin-1. *)
Definition sample : interpreter :=
  Interpreter
    (fun c =>
       if ((c =? 133) || (c =? 160))%N then USpace
       else if ((1632 <=? c) && (c <=? 1641))%N then UDecimal (digit_of_N (c - 1632))
       else if ((192 <=? c) && (c <=? 255) && negb (c =? 215) && negb (c =? 247))%N
            then UAlnum
       else UOther)
    4300.

(** ** Private ranges *)

(** [NetStatWiz.is_private_ip]: the bare [except] turns the [ValueError] of
    [int] into [False]. *)
Definition is_private_ip (py : interpreter) (ip : str) : bool :=
  let parts := Text.split 46 ip in
  if negb (Nat.eqb (length parts) 4) then false
  else
    match Text.py_int py (nth 0 parts []) with
    | None => false
    | Some first =>
        match Text.py_int py (nth 1 parts []) with
        | None => false
        | Some second =>
            if first =? 10 then true
            else if (first =? 172) && (16 <=? second) && (second <=? 31) then true
            else if (first =? 192) && (second =? 168) then true
            else if first =? 127 then true
            else false
        end
    end.

(** ** Connection records and the line pattern *)

Record connection := Connection {
  protocol : str;
  local_ip : str;
  local_port : Z;
  remote_ip : str;
  remote_port : Z;
  state : str
}.

(** The six groups of a match, in order. *)
Record groups := Groups {
  g_protocol : str;
  g_local_ip : str;
  g_local_port : str;
  g_remote_ip : str;
  g_remote_port : str;
  g_state : str
}.

Module Pattern.
Import Text.

(** A scanner takes the text still to be read and gives what it captured and
    what is left, or fails. *)
Definition scanner (A : Type) : Type := str -> option (A * str).

(** [p*] for a character class [p], greedy. *)
Definition many (p : N -> bool) : scanner str :=
  fun s => Some (span p s).

(** [p+] for a character class [p], greedy. *)
Definition many1 (p : N -> bool) : scanner str :=
  fun s =>
    match span p s with
    | ([], _) => None
    | (a, r) => Some (a, r)
    end.

(** One literal character. *)
Definition lit (c : N) : scanner unit :=
  fun s =>
    match s with
    | c' :: r => if (c' =? c)%N then Some (tt, r) else None
    | [] => None
    end.

(** What is left of [s] after the prefix [w], if [s] starts with [w]. *)
Fixpoint after_prefix (w s : str) : option str :=
  match w, s with
  | [], _ => Some s
  | c :: w', c' :: s' => if (c' =? c)%N then after_prefix w' s' else None
  | _ :: _, [] => None
  end.

(** A literal word, captured. *)
Definition word (w : str) : scanner str :=
  fun s => r ← after_prefix w s; Some (w, r).

(** [(TCP|UDP)] *)
Definition proto : scanner str :=
  fun s =>
    match word (txt "TCP") s with
    | Some r => Some r
    | None => word (txt "UDP") s
    end.

Section WithInterpreter.

Variable py : interpreter.

(** [(\d+\.\d+\.\d+\.\d+)] *)
Definition dotted_quad : scanner str :=
  fun s =>
    '(a, s) ← many1 (is_digit py) s;
    '(_, s) ← lit 46 s;
    '(b, s) ← many1 (is_digit py) s;
    '(_, s) ← lit 46 s;
    '(c, s) ← many1 (is_digit py) s;
    '(_, s) ← lit 46 s;
    '(d, s) ← many1 (is_digit py) s;
    Some (a ++ [46%N] ++ b ++ [46%N] ++ c ++ [46%N] ++ d, s).

(** [pattern.match(line)] for the pattern of [parse_netstat_output],

      ^\s*(TCP|UDP)\s+(\d+\.\d+\.\d+\.\d+):(\d+)\s+(\d+\.\d+\.\d+\.\d+):(\d+)\s+(\w+)

    anchored at the start of the line and open at its end.  Every repetition
    is over a character class that excludes the character the pattern needs
    next ([\s] before a letter, a digit or a word character, [\d] before a
    dot, a colon or white space), and the last one is greedy, so the
    backtracking matcher agrees with this one left-to-right pass;
    [PatternFacts.pattern_match_spec] states which lines it accepts. *)
Definition pattern_match (line : str) : option groups :=
  '(_, s) ← many (is_space py) line;
  '(protocol, s) ← proto s;
  '(_, s) ← many1 (is_space py) s;
  '(local_ip, s) ← dotted_quad s;
  '(_, s) ← lit 58 s;
  '(local_port, s) ← many1 (is_digit py) s;
  '(_, s) ← many1 (is_space py) s;
  '(remote_ip, s) ← dotted_quad s;
  '(_, s) ← lit 58 s;
  '(remote_port, s) ← many1 (is_digit py) s;
  '(_, s) ← many1 (is_space py) s;
  '(state, _) ← many1 (is_word py) s;
  Some (Groups protocol local_ip local_port remote_ip remote_port state).

End WithInterpreter.

End Pattern.

(** The remote addresses that [parse_netstat_output] skips by name. *)
Definition skipped_literals : list str :=
  [txt "0.0.0.0"; txt "127.0.0.1"; txt "::"; txt "::1"].

(** The body of the loop of [parse_netstat_output] for one line: the record
    to append, if any; the outer [None] is the [ValueError] that [int]
    raises on a port, which nothing catches. *)
Definition parse_line (py : interpreter) (line : str) : option (option connection) :=
  match Pattern.pattern_match py line with
  | Some g =>
      if negb (bool_decide (g_remote_ip g ∈ skipped_literals)) then
        if negb (is_private_ip py (g_remote_ip g)) then
          local_port ← Text.py_int py (g_local_port g);
          remote_port ← Text.py_int py (g_remote_port g);
          Some (Some {| protocol := g_protocol g;
                        local_ip := g_local_ip g;
                        local_port := local_port;
                        remote_ip := g_remote_ip g;
                        remote_port := remote_port;
                        state := g_state g |})
        else Some None
      else Some None
  | None => Some None
  end.

(** [NetStatWiz.parse_netstat_output]; [None] when it raises. *)
Fixpoint parse_netstat_output (py : interpreter) (lines : list str)
  : option (list connection) :=
  match lines with
  | [] => Some []
  | line :: rest =>
      r ← parse_line py line;
      connections ← parse_netstat_output py rest;
      Some (match r with
            | Some c => c :: connections
            | None => connections
            end)
  end.

(** ** Static port table *)

(** The literal of [PORT_SERVICES], in source order. *)
Definition PORT_SERVICES_items : list (Z * str) :=
  [(20, txt "FTP Data"); (21, txt "FTP"); (22, txt "SSH"); (23, txt "Telnet");
   (25, txt "SMTP"); (53, txt "DNS"); (80, txt "HTTP"); (110, txt "POP3");
   (143, txt "IMAP"); (443, txt "HTTPS"); (445, txt "SMB"); (3306, txt "MySQL");
   (3389, txt "RDP"); (5432, txt "PostgreSQL"); (8080, txt "HTTP-Proxy");
   (8443, txt "HTTPS-Alt"); (27017, txt "MongoDB"); (6379, txt "Redis");
   (9200, txt "Elasticsearch"); (27015, txt "Steam")].

Definition PORT_SERVICES : gmap Z str := list_to_map PORT_SERVICES_items.

(** [NetStatWiz.get_service_name] *)
Definition get_service_name (port : Z) : str :=
  default (txt "Unknown") (PORT_SERVICES !! port).

(** ** Geolocation data *)

(** A JSON number as [json.loads] gives it: an [int] or a [float]. *)
Inductive number :=
  | NInt (z : Z)
  | NFloat (f : float).

(** Truth value of a number, which is also [x != 0]. *)
Definition nonzero (x : number) : bool :=
  match x with
  | NInt z => negb (z =? 0)
  | NFloat f => negb (PrimFloat.eqb f 0%float)
  end.

(** The dictionary that [get_ip_location] builds and caches. *)
Record location := Location {
  loc_ip : str;
  loc_country : str;
  loc_region : str;
  loc_city : str;
  loc_latitude : number;
  loc_longitude : number;
  loc_isp : str;
  loc_org : str
}.

(** The fields that [get_ip_location] reads from the decoded answer, each
    absent or present.  The provider's text fields are strings and its
    coordinates are numbers; answers outside that schema are not modelled. *)
Record api_object := ApiObject {
  d_status : option str;
  d_message : option str;
  d_country : option str;
  d_regionName : option str;
  d_city : option str;
  d_lat : option number;
  d_lon : option number;
  d_isp : option str;
  d_org : option str
}.

(** What one request to the provider comes to. *)
Inductive response :=
  | HTTPError (code : Z)        (* urlopen raises urllib.error.HTTPError *)
  | TransportError              (* time-out, URLError, undecodable bytes, ... *)
  | MalformedJSON               (* json.loads raises *)
  | NotAnObject                 (* valid JSON that has no [get]: AttributeError *)
  | JSONObject (data : api_object).

(** The effects of the resolver, as they happen. *)
Inductive event :=
  | Sleep (milliseconds : Z)
  | HttpGet (url : str) (timeout_seconds : Z).

Definition is_request (e : event) : bool :=
  match e with HttpGet _ _ => true | Sleep _ => false end.

Definition is_sleep (e : event) : bool :=
  match e with Sleep _ => true | HttpGet _ _ => false end.

(** Number of network calls, and of delays, in a history. *)
Definition network_calls (t : list event) : nat := length (filter is_request t).
Definition delays (t : list event) : nat := length (filter is_sleep t).

(** One element of a [port_services] list. *)
Record service_entry := ServiceEntry {
  e_ip : str;
  e_service : str;
  e_protocol : str;
  e_state : str
}.

(** The object [self], together with the history of its effects (oldest
    first).  [ip_order] lists the keys of [ip_locations] in the order of
    their insertion, which is the order in which the dictionary is
    iterated. *)
Record wiz := Wiz {
  connections : list connection;
  ip_locations : gmap str location;
  ip_order : list str;
  port_services : gmap Z (list service_entry);
  trace : list event
}.

(** [NetStatWiz.__init__] *)
Definition init : wiz := Wiz [] ∅ [] ∅ [].

Definition set_connections (cs : list connection) (w : wiz) : wiz :=
  Wiz cs (ip_locations w) (ip_order w) (port_services w) (trace w).

(** [self.ip_locations[ip] = location]: a new key goes last. *)
Definition set_ip_location (ip : str) (loc : location) (w : wiz) : wiz :=
  Wiz (connections w) (<[ip := loc]> (ip_locations w))
      (if bool_decide (ip ∈ ip_order w) then ip_order w else ip_order w ++ [ip])
      (port_services w) (trace w).

Definition set_port_services (m : gmap Z (list service_entry)) (w : wiz) : wiz :=
  Wiz (connections w) (ip_locations w) (ip_order w) m (trace w).

Definition emit (e : event) (w : wiz) : wiz :=
  Wiz (connections w) (ip_locations w) (ip_order w) (port_services w)
      (trace w ++ [e]).

(** [self.ip_locations.items()], in insertion order. *)
Definition items (w : wiz) : list (str * location) :=
  omap (fun ip => (fun loc => (ip, loc)) <$> ip_locations w !! ip) (ip_order w).

Definition api_url (ip : str) : str :=
  txt "http://ip-api.com/json/" ++ ip ++
  txt "?fields=status,message,country,countryCode,region,regionName,city,lat,lon,isp,org,query".

(** The dictionary built on a ["success"] answer. *)
Definition location_of (ip : str) (data : api_object) : location :=
  {| loc_ip := ip;
     loc_country := default (txt "Unknown") (d_country data);
     loc_region := default (txt "Unknown") (d_regionName data);
     loc_city := default (txt "Unknown") (d_city data);
     loc_latitude := default (NInt 0) (d_lat data);
     loc_longitude := default (NInt 0) (d_lon data);
     loc_isp := default (txt "Unknown") (d_isp data);
     loc_org := default (txt "Unknown") (d_org data) |}.

(** [port_services[port].append(...)] on a [defaultdict(list)], for one
    connection. *)
Definition add_entry (port_services : gmap Z (list service_entry))
    (conn : connection) : gmap Z (list service_entry) :=
  let port := remote_port conn in
  let service := get_service_name port in
  let entry := {| e_ip := remote_ip conn; e_service := service;
                  e_protocol := protocol conn; e_state := state conn |} in
  <[port := default [] (port_services !! port) ++ [entry]]> port_services.

Definition record_service (w : wiz) (conn : connection) : wiz :=
  set_port_services (add_entry (port_services w) conn) w.

Section Pipeline.

(** The interpreter. *)
Variable py : interpreter.

(** The provider: its answer to the request for [url], given how many
    requests came before. *)
Variable provider : nat -> str -> response.

(** The order in which a Python [set] of strings is iterated. *)
Variable iter_set : gset str -> list str.

(** [NetStatWiz.get_ip_location] *)
Definition get_ip_location (ip : str) (w : wiz) : option location * wiz :=
  match ip_locations w !! ip with
  | Some loc => (Some loc, w)
  | None =>
      let w := emit (Sleep 1500) w in
      let url := api_url ip in
      let answer := provider (network_calls (trace w)) url in
      let w := emit (HttpGet url 5) w in
      match answer with
      | JSONObject data =>
          if bool_decide (d_status data = Some (txt "success")) then
            let loc := location_of ip data in
            (Some loc, set_ip_location ip loc w)
          else (None, w)
      | HTTPError _ => (None, w)
      | TransportError | MalformedJSON | NotAnObject => (None, w)
      end
  end.

(** [NetStatWiz.analyze_connections], given what [run_netstat] returned;
    [None] when [parse_netstat_output] raises, before anything is stored. *)
Definition analyze_connections (netstat_output : list str) (w : wiz) : option wiz :=
  cs ← parse_netstat_output py netstat_output;
  let w := set_connections cs w in
  Some
    match connections w with
    | [] => w
    | _ =>
        let unique_ips : gset str := list_to_set (remote_ip <$> connections w) in
        let w := foldl (fun w ip => snd (get_ip_location ip w)) w (iter_set unique_ips) in
        foldl record_service w (connections w)
    end.

End Pipeline.

(** ** Console summary: countries *)

(** [location.get('country', 'Unknown')] for
    [location = self.ip_locations.get(ip, {})]. *)
Definition country_of (cache : gmap str location) (ip : str) : str :=
  match cache !! ip with
  | Some loc => loc_country loc
  | None => txt "Unknown"
  end.

(** [country_counts[country] += 1] on a [defaultdict(int)], for one
    connection. *)
Definition count_country (cache : gmap str location)
    (country_counts : gmap str nat) (conn : connection) : gmap str nat :=
  let country := country_of cache (remote_ip conn) in
  <[country := (default 0 (country_counts !! country) + 1)%nat]> country_counts.

(** The [country_counts] loop of [print_summary]. *)
Definition country_counts (w : wiz) : gmap str nat :=
  foldl (count_country (ip_locations w)) ∅ (connections w).

(** ** Table report *)

(** One row of the table "All Connections". *)
Record connection_row := ConnectionRow {
  cr_protocol : str;
  cr_remote_ip : str;
  cr_remote_port : Z;
  cr_service : str;
  cr_state : str;
  cr_location : str
}.

(** One row of the table "Ports and Services Summary": at most five
    addresses are listed, and [pr_more] counts the others. *)
Record port_row := PortRow {
  pr_port : Z;
  pr_service : str;
  pr_count : nat;
  pr_ips : list str;
  pr_more : option nat
}.

(** The page that [generate_tables] writes, before it is laid out as HTML:
    the three numbers substituted in the summary block, and the rows. *)
Record tables_report := TablesReport {
  total_connections : nat;
  unique_ips : nat;
  unique_ports : nat;
  connection_rows : list connection_row;
  port_rows : list port_row
}.

Section Tables.

Variable iter_set : gset str -> list str.

Definition connection_row_of (w : wiz) (conn : connection) : connection_row :=
  let location := ip_locations w !! remote_ip conn in
  let location_str :=
    from_option loc_city (txt "Unknown") location ++ txt ", " ++
    from_option loc_country (txt "Unknown") location in
  {| cr_protocol := protocol conn;
     cr_remote_ip := remote_ip conn;
     cr_remote_port := remote_port conn;
     cr_service := get_service_name (remote_port conn);
     cr_state := state conn;
     cr_location := location_str |}.

(** The row of one port; [None] is the [IndexError] of [services[0]]. *)
Definition port_row_of (port : Z) (services : list service_entry) : option port_row :=
  first ← head services;
  let unique_ips_for_port : gset str := list_to_set (e_ip <$> services) in
  let ips := iter_set unique_ips_for_port in
  Some {| pr_port := port;
          pr_service := e_service first;
          pr_count := length services;
          pr_ips := take 5 ips;
          pr_more := if (5 <? Z.of_nat (size unique_ips_for_port))
                     then Some (size unique_ips_for_port - 5)%nat else None |}.

(** [NetStatWiz.generate_tables], up to the writing of the file: the
    content to write, or [None] when building it raises. *)
Definition generate_tables (w : wiz) : option tables_report :=
  let rows := connection_row_of w <$> connections w in
  let ports := merge_sort Z.le (elements (dom (port_services w))) in
  prows ← mapM (fun port => port_row_of port (default [] (port_services w !! port))) ports;
  Some {| total_connections := length (connections w);
          unique_ips := size (ip_locations w);
          unique_ports := size (port_services w);
          connection_rows := rows;
          port_rows := prows |}.

End Tables.

(** ** Files *)

(** A marker put on the map. *)
Record marker := Marker {
  mk_ip : str;
  mk_latitude : number;
  mk_longitude : number;
  mk_city : str;
  mk_region : str;
  mk_country : str;
  mk_isp : str;
  mk_org : str;
  mk_connections : nat
}.

(** What can be found at a path: a map saved by [folium], one of the two
    fallback pages of [generate_map], or the page of [generate_tables]. *)
Inductive file :=
  | FoliumMap (markers : list marker) (layer_control : bool)
  | NotCreatedPage (locations : nat)
  | ErrorPage (details : str)
  | TablesPage (report : tables_report).

(** What [m.save(path)] does. *)
Inductive save_outcome :=
  | SaveWrites
  | SaveLeavesNothing
  | SaveRaises (e : str).

(** The surroundings of [generate_map]: whether [folium] was imported, and
    how its calls and the file system behave.  [Some e] is an exception whose
    text is [e].  Files are named by their absolute paths. *)
Record map_env := MapEnv {
  FOLIUM_AVAILABLE : bool;
  abspath : str -> str;
  map_raises : option str;
  marker_raises : str -> option str;
  layer_control_raises : option str;
  save : save_outcome;
  open_raises : option str
}.

(** ** Map *)

Definition has_coordinates (loc : location) : bool :=
  nonzero (loc_latitude loc) && nonzero (loc_longitude loc)
  && nonzero (loc_latitude loc) && nonzero (loc_longitude loc).

Definition marker_of (w : wiz) (ip : str) (loc : location) : marker :=
  {| mk_ip := ip;
     mk_latitude := loc_latitude loc;
     mk_longitude := loc_longitude loc;
     mk_city := loc_city loc;
     mk_region := loc_region loc;
     mk_country := loc_country loc;
     mk_isp := loc_isp loc;
     mk_org := loc_org loc;
     mk_connections :=
       length (filter (fun c => remote_ip c = ip) (connections w)) |}.

(** The loop over [self.ip_locations.items()]: the markers added, or the
    exception that ends it. *)
Fixpoint add_markers (env : map_env) (w : wiz) (items : list (str * location))
  : str + list marker :=
  match items with
  | [] => inr []
  | (ip, loc) :: rest =>
      if has_coordinates loc then
        match marker_raises env ip with
        | Some e => inl e
        | None =>
            match add_markers env w rest with
            | inl e => inl e
            | inr ms => inr (marker_of w ip loc :: ms)
            end
        end
      else add_markers env w rest
  end.

(** [m.save(path)], where it does not raise. *)
Definition write_file (path : str) (f : file) (fs : gmap str file)
  : gmap str file := <[path := f]> fs.

(** A fallback page written with [open(path, 'w')]; if that raises, the
    handler only prints. *)
Definition write_fallback (env : map_env) (path : str) (f : file)
    (fs : gmap str file) : gmap str file :=
  match open_raises env with
  | Some _ => fs
  | None => write_file path f fs
  end.

(** The [try] block of the main path, up to the test that the file exists:
    the exception raised, or the files afterwards. *)
Definition render_map (env : map_env) (w : wiz) (path : str)
    (fs : gmap str file) : str + gmap str file :=
  match map_raises env with
  | Some e => inl e
  | None =>
      match add_markers env w (items w) with
      | inl e => inl e
      | inr ms =>
          let with_control :=
            match ms with
            | [] => inr false
            | _ => match layer_control_raises env with
                   | Some e => inl e
                   | None => inr true
                   end
            end in
          match with_control with
          | inl e => inl e
          | inr lc =>
              match save env with
              | SaveRaises e => inl e
              | SaveLeavesNothing => inr fs
              | SaveWrites => inr (write_file path (FoliumMap ms lc) fs)
              end
          end
      end
  end.

(** [NetStatWiz.generate_map]: the files afterwards. *)
Definition generate_map (env : map_env) (w : wiz) (output_file : str)
    (fs : gmap str file) : gmap str file :=
  if negb (FOLIUM_AVAILABLE env) then fs
  else if bool_decide (ip_locations w = ∅) then
    let abs_output_file := abspath env output_file in
    match map_raises env with
    | Some _ => fs
    | None =>
        match save env with
        | SaveWrites => write_file abs_output_file (FoliumMap [] false) fs
        | SaveLeavesNothing | SaveRaises _ => fs
        end
    end
  else
    let abs_output_file := abspath env output_file in
    match render_map env w abs_output_file fs with
    | inr fs' =>
        match fs' !! abs_output_file with
        | Some _ => fs'
        | None =>
            write_fallback env abs_output_file
              (NotCreatedPage (size (ip_locations w))) fs'
        end
    | inl e => write_fallback env abs_output_file (ErrorPage e) fs
    end.

(** ** The command and the entry point *)

(** What [subprocess.run(['netstat', '-an'], ...)] comes to: the captured
    output, the 30-second time-out, or any other exception. *)
Inductive subprocess_outcome :=
  | Completed (stdout : str)
  | TimeoutExpired
  | RunError.

(** [NetStatWiz.run_netstat] *)
Definition run_netstat (outcome : subprocess_outcome) : list str :=
  match outcome with
  | Completed stdout => Text.split 10 stdout
  | TimeoutExpired => []
  | RunError => []
  end.

(** How [main] ends: it returns, or an exception that nothing catches ends
    the program. *)
Inductive exit_status :=
  | Finished
  | Uncaught (error : str).

(** What [main] leaves behind: the object, the files, and how it ended. *)
Record run_result := RunResult {
  final : wiz;
  files : gmap str file;
  status : exit_status
}.

(** The order of [sorted(..., key=lambda x: len(x[1]), reverse=True)]. *)
Definition more_connections (a b : Z * list service_entry) : Prop :=
  (length b.2 <= length a.2)%nat.

#[global] Instance more_connections_dec : RelDecision more_connections :=
  fun a b => decide (length b.2 <= length a.2)%nat.

(** [NetStatWiz.print_summary], as far as it can raise: [services[0]] is an
    [IndexError] on an empty list, for each of the ten ports with the most
    connections.  Lists of equal length stay in the order of the dictionary,
    which does not change whether an empty one is among the first ten.
    Console output is left out. *)
Definition print_summary (w : wiz) : option unit :=
  let sorted_ports :=
    merge_sort more_connections (map_to_list (port_services w)) in
  _ ← mapM (fun item : Z * list service_entry => head item.2) (take 10 sorted_ports);
  Some tt.

Section Main.

Variable py : interpreter.
Variable provider : nat -> str -> response.
Variable iter_set : gset str -> list str.
Variable env : map_env.

(** Whether [open("network_tables.html", 'w')] raises in
    [generate_tables]. *)
Variable tables_open_raises : option str.

(** [main], from the outcome of the command and the files present: the
    analysis, then, if there are connections, [print_summary],
    [generate_map] and [generate_tables], which writes its page last, at the
    path that the relative name stands for.  An exception that none of them
    catches ends the program where it is raised. *)
Definition main (outcome : subprocess_outcome) (fs : gmap str file) : run_result :=
  match analyze_connections py provider iter_set (run_netstat outcome) init with
  | None => RunResult init fs (Uncaught (txt "ValueError"))
  | Some w =>
      match connections w with
      | [] => RunResult w fs Finished
      | _ =>
          match print_summary w with
          | None => RunResult w fs (Uncaught (txt "IndexError"))
          | Some _ =>
              let fs := generate_map env w (txt "network_map.html") fs in
              match generate_tables iter_set w with
              | None => RunResult w fs (Uncaught (txt "IndexError"))
              | Some report =>
                  match tables_open_raises with
                  | Some e => RunResult w fs (Uncaught e)
                  | None =>
                      RunResult w
                        (write_file (abspath env (txt "network_tables.html"))
                                    (TablesPage report) fs)
                        Finished
                  end
              end
          end
      end
  end.

End Main.

(** ** Scenarios *)

Definition scenario_lines : list str :=
  [txt "TCP    0.0.0.0:80    0.0.0.0:0    LISTENING";
   txt "TCP    10.0.0.5:51000    93.184.216.34:443    ESTABLISHED";
   txt "garbage line"].

Definition scenario_connection : connection :=
  Connection (txt "TCP") (txt "10.0.0.5") 51000 (txt "93.184.216.34") 443
             (txt "ESTABLISHED").

(** A provider that locates every address. *)
Definition provider_success : nat -> str -> response :=
  fun _ _ =>
    JSONObject
      {| d_status := Some (txt "success"); d_message := None;
         d_country := Some (txt "United States");
         d_regionName := Some (txt "Massachusetts");
         d_city := Some (txt "Norwell"); d_lat := Some (NFloat 42.125%float);
         d_lon := Some (NFloat (-70.75)%float);
         d_isp := Some (txt "Edgecast"); d_org := None |}.

Definition scenario_location : location :=
  Location (txt "93.184.216.34") (txt "United States") (txt "Massachusetts")
    (txt "Norwell") (NFloat 42.125%float) (NFloat (-70.75)%float)
    (txt "Edgecast") (txt "Unknown").

(** A provider that answers
    [{"status":"fail","message":"invalid query"}] to every request. *)
Definition provider_fail : nat -> str -> response :=
  fun _ _ =>
    JSONObject
      {| d_status := Some (txt "fail"); d_message := Some (txt "invalid query");
         d_country := None; d_regionName := None; d_city := None;
         d_lat := None; d_lon := None; d_isp := None; d_org := None |}.

(** The state after the first, successful resolution of the scenario's
    address. *)
Definition scenario_resolved : wiz :=
  Wiz [] {[txt "93.184.216.34" := scenario_location]} [txt "93.184.216.34"] ∅
      [Sleep 1500; HttpGet (api_url (txt "93.184.216.34")) 5].

(** ** The address blocks, as the specification names them *)

(** The 32-bit value of the address a.b.c.d. *)
Definition ipv4_value (a b c d : Z) : Z := a * 2 ^ 24 + b * 2 ^ 16 + c * 2 ^ 8 + d.

(** Membership of an address in the block [base/len]: the leading [len] bits
    agree. *)
Definition in_block (addr base len : Z) : bool :=
  Z.shiftr addr (32 - len) =? Z.shiftr base (32 - len).

(** 10.0.0.0/8, 172.16.0.0/12, 192.168.0.0/16 and 127.0.0.0/8. *)
Definition in_private_blocks (addr : Z) : bool :=
  in_block addr (ipv4_value 10 0 0 0) 8
  || in_block addr (ipv4_value 172 16 0 0) 12
  || in_block addr (ipv4_value 192 168 0 0) 16
  || in_block addr (ipv4_value 127 0 0 0) 8.

(** The number that a run of ASCII digits writes. *)
Definition ascii_value (s : str) : Z :=
  fold_left (fun acc c => 10 * acc + (Z.of_N c - 48)) s 0.

(** One octet of a well-formed address: one to three ASCII digits whose
    value is at most 255. *)
Definition octet (s : str) : option Z :=
  if Text.run_of Text.c_isdigit s && Nat.leb (length s) 3
     && (ascii_value s <=? 255)
  then Some (ascii_value s) else None.

(** A well-formed dotted quad, with its four octets. *)
Definition parse_ipv4 (s : str) : option (Z * Z * Z * Z) :=
  match Text.split 46 s with
  | [p0; p1; p2; p3] =>
      a ← octet p0; b ← octet p1; c ← octet p2; d ← octet p3; Some (a, b, c, d)
  | _ => None
  end.

(** The tests of [is_private_ip] on the integers of the first two parts:
    10.x, 127.x, 172.16-31 and 192.168. *)
Definition private_prefix (first second : Z) : bool :=
  (first =? 10) || (first =? 127)
  || ((first =? 172) && (16 <=? second) && (second <=? 31))
  || ((first =? 192) && (second =? 168)).

(** The answers that are not a success: an error of the request, text that
    is not a JSON object, or a status other than "success". *)
Definition failed (answer : response) : Prop :=
  match answer with
  | JSONObject data => d_status data <> Some (txt "success")
  | HTTPError _ | TransportError | MalformedJSON | NotAnObject => True
  end.

(** ** Counting, as the specification words it *)

Fixpoint count {A : Type} (p : A -> bool) (l : list A) : nat :=
  match l with
  | [] => 0%nat
  | x :: r => ((if p x then 1 else 0) + count p r)%nat
  end.

(** The remote address of [conn] is cached, with the given country. *)
Definition cached_in (cache : gmap str location) (country : str)
    (conn : connection) : bool :=
  match cache !! remote_ip conn with
  | Some loc => bool_decide (loc_country loc = country)
  | None => false
  end.

(** The remote address of [conn] has no entry in the cache. *)
Definition not_cached (cache : gmap str location) (conn : connection) : bool :=
  match cache !! remote_ip conn with
  | Some _ => false
  | None => true
  end.

(** The distinct remote addresses of a connection set. *)
Definition remote_ips (cs : list connection) : gset str :=
  list_to_set (remote_ip <$> cs).

(** The distinct remote ports of a connection set. *)
Definition remote_ports (cs : list connection) : gset Z :=
  list_to_set (remote_port <$> cs).

(** One external connection whose lookup fails. *)
Definition undercount_lines : list str :=
  [txt "TCP    10.0.0.5:51000    93.184.216.34:443    ESTABLISHED"].

(** The state that [analyze_connections] reaches on it. *)
Definition undercount_state : wiz :=
  Wiz [scenario_connection] ∅ []
      {[443 := [ServiceEntry (txt "93.184.216.34") (txt "HTTPS") (txt "TCP")
                             (txt "ESTABLISHED")]]}
      [Sleep 1500; HttpGet (api_url (txt "93.184.216.34")) 5].

(** [folium] was not imported. *)
Definition env_without_folium : map_env :=
  {| FOLIUM_AVAILABLE := false; abspath := fun p => p; map_raises := None;
     marker_raises := fun _ => None; layer_control_raises := None;
     save := SaveWrites; open_raises := None |}.

(** [folium] is there, but saving the map raises. *)
Definition env_save_fails : map_env :=
  {| FOLIUM_AVAILABLE := true; abspath := fun p => p; map_raises := None;
     marker_raises := fun _ => None; layer_control_raises := None;
     save := SaveRaises (txt "disk full"); open_raises := None |}.

(** [folium] is there and everything works. *)
Definition env_working : map_env :=
  {| FOLIUM_AVAILABLE := true; abspath := fun p => p; map_raises := None;
     marker_raises := fun _ => None; layer_control_raises := None;
     save := SaveWrites; open_raises := None |}.

(** A cache whose only entry has no coordinates. *)
Definition no_coordinates_state : wiz :=
  Wiz [scenario_connection]
      {[txt "93.184.216.34" :=
          Location (txt "93.184.216.34") (txt "Unknown") (txt "Unknown")
                   (txt "Unknown") (NInt 0) (NInt 0) (txt "Unknown")
                   (txt "Unknown")]}
      [txt "93.184.216.34"] ∅ [].

(** ** Lines of the pattern's shape *)

(** The pieces of a line that the pattern matches: white space, the
    protocol, the two addresses with their ports, the state and whatever
    follows it. *)
Record line_shape := LineShape {
  sh_indent : str;
  sh_protocol : str;
  sh_gap1 : str;
  sh_local : str * str * str * str;
  sh_local_port : str;
  sh_gap2 : str;
  sh_remote : str * str * str * str;
  sh_remote_port : str;
  sh_gap3 : str;
  sh_state : str;
  sh_rest : str
}.

Definition quad_text (q : str * str * str * str) : str :=
  let '(a, b, c, d) := q in a ++ [46%N] ++ b ++ [46%N] ++ c ++ [46%N] ++ d.

(** [s] is empty or starts with a character outside the class [p]. *)
Definition stops (p : N -> bool) (s : str) : bool :=
  match s with
  | [] => true
  | c :: _ => negb (p c)
  end.

Definition line_text (sh : line_shape) : str :=
  sh_indent sh ++ sh_protocol sh ++ sh_gap1 sh
  ++ quad_text (sh_local sh) ++ [58%N] ++ sh_local_port sh ++ sh_gap2 sh
  ++ quad_text (sh_remote sh) ++ [58%N] ++ sh_remote_port sh ++ sh_gap3 sh
  ++ sh_state sh ++ sh_rest sh.

(** The groups that such a line stands for. *)
Definition shape_groups (sh : line_shape) : groups :=
  Groups (sh_protocol sh) (quad_text (sh_local sh)) (sh_local_port sh)
         (quad_text (sh_remote sh)) (sh_remote_port sh) (sh_state sh).

Section Shapes.

Variable py : interpreter.

Definition quad_runs (q : str * str * str * str) : bool :=
  let '(a, b, c, d) := q in
  Text.digit_run py a && Text.digit_run py b
  && Text.digit_run py c && Text.digit_run py d.

Definition well_shaped (sh : line_shape) : bool :=
  forallb (Text.is_space py) (sh_indent sh)
  && (bool_decide (sh_protocol sh = txt "TCP")
      || bool_decide (sh_protocol sh = txt "UDP"))
  && Text.run_of (Text.is_space py) (sh_gap1 sh)
  && quad_runs (sh_local sh) && Text.digit_run py (sh_local_port sh)
  && Text.run_of (Text.is_space py) (sh_gap2 sh)
  && quad_runs (sh_remote sh) && Text.digit_run py (sh_remote_port sh)
  && Text.run_of (Text.is_space py) (sh_gap3 sh)
  && Text.run_of (Text.is_word py) (sh_state sh)
  && stops (Text.is_word py) (sh_rest sh).

(** The record that such a line stands for. *)
Definition shape_connection (sh : line_shape) : connection :=
  Connection (sh_protocol sh) (quad_text (sh_local sh))
             (Text.run_value py (sh_local_port sh))
             (quad_text (sh_remote sh))
             (Text.run_value py (sh_remote_port sh)) (sh_state sh).

(** The numeric values of the four octets of a quad of digit runs. *)
Definition quad_values (q : str * str * str * str) : Z * Z * Z * Z :=
  let '(a, b, c, d) := q in
  (Text.run_value py a, Text.run_value py b, Text.run_value py c,
   Text.run_value py d).

(** [int] reads a run of digits of this length: it is within the ceiling. *)
Definition readable (s : str) : bool := negb (Text.over_limit py (length s)).

(** A quad of digit runs is classified as private: [int] reads its first
    two octets, and they read 10.x, 127.x, 172.16-31 or 192.168. *)
Definition quad_private (q : str * str * str * str) : bool :=
  let '(a, b, _, _) := q in
  readable a && readable b
  && private_prefix (Text.run_value py a) (Text.run_value py b).

(** [int] reads both ports of the shape. *)
Definition ports_readable (sh : line_shape) : bool :=
  readable (sh_local_port sh) && readable (sh_remote_port sh).

End Shapes.

(** Some octet is above 255. *)
Definition exceeds_255 (v : Z * Z * Z * Z) : bool :=
  let '(a, b, c, d) := v in
  (255 <? a) || (255 <? b) || (255 <? c) || (255 <? d).

(** A line whose remote address starts with an octet above 255. *)
Definition shape_999 : line_shape :=
  LineShape (txt "  ") (txt "TCP") (txt "    ")
            (txt "192", txt "168", txt "1", txt "5") (txt "51000") (txt "    ")
            (txt "999", txt "1", txt "2", txt "3") (txt "443") (txt "    ")
            (txt "ESTABLISHED") [].

(** A line whose remote address ends with an octet above 255:
    ["TCP    192.168.1.5:51000    10.0.0.999:443    ESTABLISHED"]. *)
Definition shape_10_0_0_999 : line_shape :=
  LineShape [] (txt "TCP") (txt "    ")
            (txt "192", txt "168", txt "1", txt "5") (txt "51000") (txt "    ")
            (txt "10", txt "0", txt "0", txt "999") (txt "443") (txt "    ")
            (txt "ESTABLISHED") [].

(** A line whose local address has an octet above 255 and whose remote
    address is 0.0.0.0. *)
Definition shape_local_999 : line_shape :=
  LineShape [] (txt "TCP") (txt "    ")
            (txt "999", txt "1", txt "2", txt "3") (txt "80") (txt "    ")
            (txt "0", txt "0", txt "0", txt "0") (txt "0") (txt "    ")
            (txt "LISTENING") [].

(** A line whose remote address is 999.1.2.3 and whose remote port is
    written with 4301 digits. *)
Definition shape_long_port : line_shape :=
  LineShape [] (txt "TCP") (txt "    ")
            (txt "192", txt "168", txt "1", txt "5") (txt "51000") (txt "    ")
            (txt "999", txt "1", txt "2", txt "3") (repeat 52%N 4301) (txt "    ")
            (txt "ESTABLISHED") [].

(** ** Vocabulary of the further properties *)

(** The dictionary appended to [port_services] for one connection. *)
Definition entry_of (conn : connection) : service_entry :=
  {| e_ip := remote_ip conn;
     e_service := get_service_name (remote_port conn);
     e_protocol := protocol conn;
     e_state := state conn |}.

(** The loop of [analyze_connections] over the unique addresses. *)
Definition resolve_all (provider : nat -> str -> response) (w : wiz)
    (ips : list str) : wiz :=
  foldl (fun w ip => snd (get_ip_location provider ip w)) w ips.

(** The addresses that [analyze_connections] iterates over: none when there
    is no connection, else the set of remote addresses in iteration order. *)
Definition lookup_order (iter_set : gset str -> list str)
    (cs : list connection) : list str :=
  match cs with
  | [] => []
  | _ => iter_set (remote_ips cs)
  end.

(** The state that [analyze_connections] reaches from [w] once the lines are
    parsed into [cs]: the lookups, then the port table. *)
Definition analysed (provider : nat -> str -> response)
    (iter_set : gset str -> list str) (cs : list connection) (w : wiz) : wiz :=
  foldl record_service
        (resolve_all provider (set_connections cs w) (lookup_order iter_set cs)) cs.

(** The two effects of one lookup, in order. *)
Definition request_pair (ip : str) : list event :=
  [Sleep 1500; HttpGet (api_url ip) 5].

(** The sum of the values of a [country_counts] dictionary. *)
Definition total_count (counts : gmap str nat) : nat :=
  map_fold (fun _ n acc => (n + acc)%nat) 0%nat counts.

(** The provider answers every request with a success. *)
Definition always_succeeds (provider : nat -> str -> response) : Prop :=
  forall n url, exists data,
    provider n url = JSONObject data /\ d_status data = Some (txt "success").

(** The provider answers no request with a success. *)
Definition never_succeeds (provider : nat -> str -> response) : Prop :=
  forall n url, failed (provider n url).

(** The dictionary [ip_locations] is well formed: [ip_order] lists its keys,
    each once. *)
Definition dict_ok (w : wiz) : Prop :=
  NoDup (ip_order w)
  /\ forall ip, ip ∈ ip_order w <-> is_Some (ip_locations w !! ip).

(** The markers of the entries that have coordinates, in the order of the
    items. *)
Definition expected_markers (w : wiz) : list marker :=
  (fun item => marker_of w (fst item) (snd item))
    <$> List.filter (fun item => has_coordinates (snd item)) (items w).

(** What a row of the port table shows about the connections [cs]: the
    service of its port, the positive number of connections to that port,
    and at most five addresses. *)
Definition port_row_ok (cs : list connection) (row : port_row) : Prop :=
  pr_service row = get_service_name (pr_port row)
  /\ pr_count row = length (filter (fun c => remote_port c = pr_port row) cs)
  /\ (0 < pr_count row)%nat
  /\ (length (pr_ips row) <= 5)%nat.

(** A state with one connection and its location. *)
Definition located_state : wiz :=
  Wiz [scenario_connection] {[txt "93.184.216.34" := scenario_location]}
      [txt "93.184.216.34"] ∅ [].

(** * Properties *)

(** ** Facts about the text primitives *)

Module TextFacts.
Import Text.

Lemma ascii_class_decimal c d :
  ascii_class c = UDecimal d ->
  c_isdigit c = true /\ digit_value d = Z.of_N c - 48.
Proof.
  unfold ascii_class, c_isdigit.
  destruct (_ || _)%N; [discriminate|].
  destruct ((48 <=? c) && (c <=? 57))%N eqn:E;
    [|destruct (_ || _)%N; discriminate].
  intros [= <-]. split; [reflexivity|].
  apply andb_true_iff in E as [H1 H2]. apply N.leb_le in H1, H2.
  assert (H : In c [48; 49; 50; 51; 52; 53; 54; 55; 56; 57]%N) by (simpl; lia).
  simpl in H. intuition subst; reflexivity.
Qed.

Lemma c_isdigit_ascii c : c_isdigit c = true -> (c <? 127)%N = true.
Proof.
  unfold c_isdigit. intros [_ H]%andb_true_iff.
  apply N.leb_le in H. apply N.ltb_lt. lia.
Qed.

Lemma c_isdigit_not_space c : c_isdigit c = true -> c_isspace c = false.
Proof.
  unfold c_isdigit, c_isspace. intros [H1 H2]%andb_true_iff.
  apply N.leb_le in H1, H2.
  apply orb_false_iff. split.
  - apply andb_false_iff. right. apply N.leb_gt. lia.
  - apply N.eqb_neq. lia.
Qed.

Lemma c_isdigit_not_sign c :
  c_isdigit c = true -> (c =? 43)%N = false /\ (c =? 45)%N = false.
Proof.
  unfold c_isdigit. intros [H1 H2]%andb_true_iff. apply N.leb_le in H1, H2.
  split; apply N.eqb_neq; lia.
Qed.

Lemma rstrip_no_space s :
  forallb (fun c => negb (c_isspace c)) s = true -> rstrip s = s.
Proof.
  induction s as [|c r IH]; simpl; [reflexivity|].
  intros [Hc Hr]%andb_true_iff. rewrite (IH Hr).
  destruct r; [|reflexivity].
  apply negb_true_iff in Hc. now rewrite Hc.
Qed.

Lemma strip_digits s : forallb c_isdigit s = true -> strip s = s.
Proof.
  intros H. unfold strip, lstrip.
  assert (Hs : snd (span c_isspace s) = s).
  { destruct s as [|c r]; [reflexivity|]. simpl in *.
    apply andb_true_iff in H as [Hc _]. now rewrite (c_isdigit_not_space _ Hc). }
  rewrite Hs. apply rstrip_no_space.
  clear Hs. induction s as [|c r IH]; simpl in *; [reflexivity|].
  apply andb_true_iff in H as [Hc Hr].
  rewrite (c_isdigit_not_space _ Hc). simpl. auto.
Qed.

Lemma int_digits_run s : forall acc n seen,
  forallb c_isdigit s = true ->
  seen = true \/ s <> [] ->
  int_digits acc n seen s
  = Some (fold_left (fun acc c => 10 * acc + (Z.of_N c - 48)) s acc,
          (n + length s)%nat).
Proof.
  induction s as [|c r IH]; intros acc n seen Hall Hne; simpl.
  - destruct Hne as [-> | Hne]; [|congruence]. now rewrite Nat.add_0_r.
  - simpl in Hall. apply andb_true_iff in Hall as [Hc Hr].
    rewrite Hc, IH by auto. now rewrite Nat.add_succ_r.
Qed.

(** [int] on a non-empty run of ASCII digits within the ceiling. *)
Lemma parse_ascii_digits py s :
  run_of c_isdigit s = true ->
  match strip s with
  | [] => None
  | c :: r =>
      if (c =? 43)%N then int_digits 0 0 false r ≫= checked py
      else if (c =? 45)%N then Z.opp <$> (int_digits 0 0 false r ≫= checked py)
      else int_digits 0 0 false (c :: r) ≫= checked py
  end
  = checked py (fold_left (fun acc c => 10 * acc + (Z.of_N c - 48)) s 0, length s).
Proof.
  destruct s as [|c r]; [discriminate|]. unfold run_of. intros Hall.
  rewrite (strip_digits _ Hall).
  pose proof Hall as Hc. simpl in Hc. apply andb_true_iff in Hc as [Hc _].
  destruct (c_isdigit_not_sign _ Hc) as [-> ->].
  rewrite (int_digits_run (c :: r) 0 0 false Hall) by (right; discriminate).
  reflexivity.
Qed.

Section WithInterpreter.

Variable py : interpreter.

Lemma digit_not_space c : is_digit py c = true -> is_space py c = false.
Proof. unfold is_digit, is_space. now destruct (classify py c). Qed.

Lemma space_not_digit c : is_space py c = true -> is_digit py c = false.
Proof. unfold is_digit, is_space. now destruct (classify py c). Qed.

Lemma word_not_space c : is_word py c = true -> is_space py c = false.
Proof.
  unfold is_word, is_space.
  destruct (classify py c) eqn:E; try reflexivity.
  intros ->%N.eqb_eq. discriminate E.
Qed.

Lemma c_isdigit_is_digit c :
  c_isdigit c = true ->
  is_digit py c = true /\ decimal py c = Some (Z.of_N c - 48).
Proof.
  intros Hc. pose proof (c_isdigit_ascii _ Hc) as Hlt.
  unfold is_digit, decimal, classify.
  assert (Hlt' : (c <? 128)%N = true)
    by (apply N.ltb_lt in Hlt; apply N.ltb_lt; lia).
  rewrite Hlt'. unfold ascii_class.
  assert (Hs : (((9 <=? c) && (c <=? 13)) || ((28 <=? c) && (c <=? 32)))%N = false).
  { unfold c_isdigit in Hc. apply andb_true_iff in Hc as [H1 H2].
    apply N.leb_le in H1, H2. apply orb_false_iff.
    split; apply andb_false_iff; right; apply N.leb_gt; lia. }
  rewrite Hs. unfold c_isdigit in Hc. rewrite Hc. split; [reflexivity|].
  f_equal.
  assert (Hd : ascii_class c = UDecimal (digit_of_N (c - 48)))
    by (unfold ascii_class; now rewrite Hs, Hc).
  now apply ascii_class_decimal in Hd as [_ ->].
Qed.

Lemma ascii_of_digit c :
  is_digit py c = true ->
  exists c',
    ascii_of py c = Some c' /\ c_isdigit c' = true
    /\ Z.of_N c' - 48 = default 0 (decimal py c)
    /\ ((c <? 128)%N = true -> c' = c).
Proof.
  unfold is_digit, decimal, ascii_of.
  destruct (classify py c) as [|d| |] eqn:E; try discriminate. intros _.
  destruct (c <? 127)%N eqn:Hlt.
  - assert (Hlt' : (c <? 128)%N = true)
      by (apply N.ltb_lt in Hlt; apply N.ltb_lt; lia).
    unfold classify in E. rewrite Hlt' in E.
    apply ascii_class_decimal in E as [Hc Hv].
    exists c. simpl. rewrite Hv. auto.
  - exists (48 + Z.to_N (digit_value d))%N. split; [reflexivity|].
    split; [now destruct d|]. split; [now destruct d|].
    intros Hlt'. apply N.ltb_ge in Hlt. apply N.ltb_lt in Hlt'.
    assert (c = 127%N) by lia. subst c. discriminate E.
Qed.

Lemma mapM_ascii_digits s :
  forallb (is_digit py) s = true ->
  exists a,
    mapM (ascii_of py) s = Some a
    /\ length a = length s
    /\ forallb c_isdigit a = true
    /\ (forallb (fun c => (c <? 128)%N) s = true -> a = s)
    /\ forall acc,
         fold_left (fun acc c => 10 * acc + (Z.of_N c - 48)) a acc
         = fold_left (fun acc c => 10 * acc + default 0 (decimal py c)) s acc.
Proof.
  induction s as [|c s IH]; simpl.
  - intros _. exists []. repeat split; reflexivity.
  - intros [Hc Hs]%andb_true_iff.
    destruct (IH Hs) as (a & Hm & Hlen & Hall & Hsame & Hfold).
    destruct (ascii_of_digit c Hc) as (c' & Hc' & Hd & Hv & Hsame').
    exists (c' :: a). rewrite Hc', Hm. simpl. rewrite Hd, Hall, Hlen.
    repeat split; try reflexivity.
    + intros [H1 H2]%andb_true_iff. now rewrite Hsame', Hsame.
    + intros acc. now rewrite Hv, Hfold.
Qed.

(** [int] on a run of digits: the number it writes, unless the run is
    longer than the ceiling allows. *)
Lemma py_int_run s :
  digit_run py s = true ->
  py_int py s = checked py (run_value py s, length s).
Proof.
  unfold digit_run. intros Hrun.
  assert (Hall : forallb (is_digit py) s = true)
    by (destruct s; [discriminate | exact Hrun]).
  destruct (mapM_ascii_digits s Hall) as (a & Hm & Hlen & Ha & Hsame & Hfold).
  assert (Hto : to_ascii py s = Some a).
  { unfold to_ascii.
    destruct (forallb (fun c => (c <? 128)%N) s) eqn:E; [|exact Hm].
    now rewrite (Hsame eq_refl). }
  unfold py_int. rewrite Hto. cbn [mbind option_bind].
  assert (Hrun' : run_of c_isdigit a = true).
  { destruct a; [destruct s; discriminate | exact Ha]. }
  rewrite (parse_ascii_digits py a Hrun'), Hlen. unfold run_value.
  now rewrite Hfold.
Qed.

Lemma run_value_nonneg s : 0 <= run_value py s.
Proof.
  unfold run_value.
  assert (H : forall acc, 0 <= acc ->
            0 <= fold_left (fun acc c => 10 * acc + default 0 (decimal py c)) s acc).
  { induction s as [|c s IH]; intros acc Hacc; simpl; [exact Hacc|].
    apply IH. unfold decimal. destruct (classify py c) as [|d| |]; simpl; try lia.
    destruct d; simpl; lia. }
  apply H. lia.
Qed.

(** A run of at most 640 digits is read under every ceiling. *)
Lemma short_run_readable n : (n <= 640)%nat -> over_limit py n = false.
Proof.
  intros H. unfold over_limit.
  assert (E : Nat.ltb 640 n = false) by (apply Nat.ltb_ge; lia).
  now rewrite E.
Qed.

(** On ASCII digits the value does not depend on the interpreter. *)
Lemma run_value_ascii s :
  forallb c_isdigit s = true ->
  run_value py s = fold_left (fun acc c => 10 * acc + (Z.of_N c - 48)) s 0.
Proof.
  unfold run_value. intros Hall.
  assert (H : forall acc,
            fold_left (fun acc c => 10 * acc + default 0 (decimal py c)) s acc
            = fold_left (fun acc c => 10 * acc + (Z.of_N c - 48)) s acc).
  { induction s as [|c s IH]; intros acc; simpl; [reflexivity|].
    simpl in Hall. apply andb_true_iff in Hall as [Hc Hs].
    destruct (c_isdigit_is_digit c Hc) as [_ ->]. simpl. now apply IH. }
  apply H.
Qed.

Lemma ascii_digits_run s :
  run_of c_isdigit s = true -> digit_run py s = true.
Proof.
  unfold digit_run, run_of. destruct s as [|c s]; [discriminate|].
  generalize (c :: s). clear. intros s.
  induction s as [|c s IH]; simpl; [reflexivity|].
  intros [Hc Hs]%andb_true_iff.
  destruct (c_isdigit_is_digit c Hc) as [-> _]. simpl. auto.
Qed.

End WithInterpreter.

(** [int] as the interpreter evaluates it on a few strings: white space
    around, signs, underscores, the separators 0x1c-0x1f that it does not
    drop, the no-break space that it does, Arabic-Indic digits. *)
Example py_int_samples :
  map (py_int sample)
      [txt "10"; txt "010"; txt " 10 "; txt "+10"; txt "-10"; txt "1_0";
       txt "1__0"; txt "_10"; txt "10_"; []; txt "+"; txt "1O"; txt "999";
       [28; 49]%N; [160; 49]%N; [1633; 1632]%N; [49; 1632]%N]
  = [Some 10; Some 10; Some 10; Some 10; Some (-10); Some 10; None; None; None;
     None; None; None; Some 999; None; Some 1; Some 10; Some 10].
Proof. vm_compute. reflexivity. Qed.

(** The ceiling: 4300 digits are read, 4301 are not, unless the ceiling is
    switched off. *)
Example py_int_ceiling :
  py_int plain (repeat 48%N 4298 ++ txt "10") = Some 10
  /\ py_int plain (repeat 48%N 4299 ++ txt "10") = None
  /\ py_int (Interpreter (unicode plain) 0) (repeat 48%N 4299 ++ txt "10") = Some 10.
Proof. vm_compute. repeat split. Qed.

Example split_samples :
  split 46 (txt "93.184.216.34") = [txt "93"; txt "184"; txt "216"; txt "34"]
  /\ split 46 (txt "::1") = [txt "::1"] /\ split 46 [] = [[]]
  /\ split 46 (txt "1..2.") = [txt "1"; []; txt "2"; []].
Proof. repeat split. Qed.

End TextFacts.

(** ** Lines of the pattern's shape *)

Module PatternFacts.
Import Text Pattern.

Lemma span_run p (a r : str) :
  forallb p a = true -> stops p r = true -> span p (a ++ r) = (a, r).
Proof.
  intros Ha Hr. induction a as [|c a IH]; simpl.
  - destruct r as [|c r]; [reflexivity|]. simpl in Hr.
    apply negb_true_iff in Hr. simpl. now rewrite Hr.
  - simpl in Ha. apply andb_true_iff in Ha as [Hc Ha].
    now rewrite Hc, (IH Ha).
Qed.

Lemma run_of_all p (a : str) :
  run_of p a = true -> a <> [] /\ forallb p a = true.
Proof. destruct a; [discriminate|]. intros H. split; [discriminate | exact H]. Qed.

Lemma many1_run p (a r : str) :
  run_of p a = true -> stops p r = true -> many1 p (a ++ r) = Some (a, r).
Proof.
  intros [Hne Ha]%run_of_all Hr.
  unfold many1. rewrite (span_run _ _ _ Ha Hr).
  destruct a; [congruence | reflexivity].
Qed.

(** A run of one class, followed by anything, stops every class disjoint
    from it. *)
Lemma stops_run p q (a r : str) :
  (forall c, q c = true -> p c = false) ->
  run_of q a = true -> stops p (a ++ r) = true.
Proof.
  intros Hpq [Hne Ha]%run_of_all.
  destruct a as [|c a]; [congruence|]. simpl in *.
  apply andb_true_iff in Ha as [Hc _]. now rewrite (Hpq c Hc).
Qed.

Lemma after_prefix_spec (w : str) : forall s r,
  after_prefix w s = Some r -> s = w ++ r.
Proof.
  induction w as [|c w IH]; intros s r; simpl.
  - now intros [= ->].
  - destruct s as [|c' s]; [discriminate|].
    destruct (N.eqb_spec c' c) as [->|]; [|discriminate].
    intros H. simpl. f_equal. now apply IH.
Qed.

Lemma lit_ok c (r : str) : lit c (c :: r) = Some (tt, r).
Proof. unfold lit. now rewrite N.eqb_refl. Qed.

Lemma lit_spec c s u r : lit c s = Some (u, r) -> s = c :: r.
Proof.
  unfold lit. destruct s as [|c' s]; [discriminate|].
  destruct (N.eqb_spec c' c) as [->|]; [|discriminate]. now intros [= _ <-].
Qed.

Lemma span_spec p (s : str) : forall a r,
  span p s = (a, r) -> s = a ++ r /\ forallb p a = true /\ stops p r = true.
Proof.
  induction s as [|c s IH]; simpl; intros a r.
  - intros [= <- <-]. auto.
  - destruct (p c) eqn:Hc.
    + destruct (span p s) as [a' r'] eqn:E. intros [= <- <-].
      destruct (IH a' r' eq_refl) as (-> & Ha & Hr).
      simpl. rewrite Hc. auto.
    + intros [= <- <-]. simpl. rewrite Hc. auto.
Qed.

Lemma many1_spec p s a r :
  many1 p s = Some (a, r) ->
  s = a ++ r /\ run_of p a = true /\ stops p r = true.
Proof.
  unfold many1. destruct (span p s) as [a' r'] eqn:E.
  apply span_spec in E as (-> & Ha & Hr).
  destruct a' as [|c a']; [discriminate|]. intros [= <- <-]. auto.
Qed.

Lemma word_spec w s w' r :
  word w s = Some (w', r) -> w' = w /\ s = w ++ r.
Proof.
  unfold word.
  destruct (after_prefix w s) as [r1|] eqn:E; simpl; [|discriminate].
  intros [= <- <-]. split; [reflexivity | now apply after_prefix_spec].
Qed.

Lemma proto_spec s w r :
  proto s = Some (w, r) ->
  s = w ++ r
  /\ (bool_decide (w = txt "TCP") || bool_decide (w = txt "UDP")) = true.
Proof.
  unfold proto.
  destruct (word (txt "TCP") s) as [[w1 r1]|] eqn:E1.
  - intros [= <- <-]. apply word_spec in E1 as [-> ->].
    split; reflexivity.
  - intros E2. apply word_spec in E2 as [-> ->].
    split; reflexivity.
Qed.

Lemma split_last sep (a : str) :
  forallb (fun c => negb (c =? sep)%N) a = true -> split sep a = [a].
Proof.
  induction a as [|c a IH]; simpl; [reflexivity|].
  intros [Hc Ha]%andb_true_iff. apply negb_true_iff in Hc.
  now rewrite Hc, (IH Ha).
Qed.

Lemma split_run sep (a r : str) :
  forallb (fun c => negb (c =? sep)%N) a = true ->
  split sep (a ++ sep :: r) = a :: split sep r.
Proof.
  induction a as [|c a IH]; simpl.
  - intros _. now rewrite N.eqb_refl.
  - intros [Hc Ha]%andb_true_iff. apply negb_true_iff in Hc.
    now rewrite Hc, (IH Ha).
Qed.

Ltac step_scan H :=
  match type of H with
  | mbind _ ?x = Some _ =>
      let E := fresh "E" in
      destruct x as [[? ?]|] eqn:E; cbn [mbind option_bind] in H;
      [|discriminate H]
  end.

Section WithInterpreter.

Variable py : interpreter.

Lemma proto_ok w (r : str) :
  (bool_decide (w = txt "TCP") || bool_decide (w = txt "UDP")) = true ->
  proto (w ++ r) = Some (w, r) /\ stops (is_space py) (w ++ r) = true.
Proof.
  intros [H | H]%orb_true_iff; apply bool_decide_eq_true in H; subst w;
    split; reflexivity.
Qed.

Lemma digit_run_no_dot a :
  digit_run py a = true -> forallb (fun c => negb (c =? 46)%N) a = true.
Proof.
  intros [_ Ha]%run_of_all. induction a as [|c a IH]; simpl; [reflexivity|].
  simpl in Ha. apply andb_true_iff in Ha as [Hc Ha]. rewrite (IH Ha).
  destruct (N.eqb_spec c 46) as [->|]; [discriminate Hc | reflexivity].
Qed.

Lemma dotted_quad_ok q (r : str) :
  quad_runs py q = true -> stops (is_digit py) r = true ->
  dotted_quad py (quad_text q ++ r) = Some (quad_text q, r).
Proof.
  destruct q as [[[a b] c] d]. unfold quad_runs, quad_text. cbv beta iota.
  intros [[[Ha Hb]%andb_true_iff Hc]%andb_true_iff Hd]%andb_true_iff Hr.
  rewrite <- !app_assoc. unfold dotted_quad.
  rewrite (many1_run (is_digit py) a) by (exact Ha || reflexivity).
  cbn [mbind option_bind app]. rewrite lit_ok. cbn [mbind option_bind].
  rewrite (many1_run (is_digit py) b) by (exact Hb || reflexivity).
  cbn [mbind option_bind app]. rewrite lit_ok. cbn [mbind option_bind].
  rewrite (many1_run (is_digit py) c) by (exact Hc || reflexivity).
  cbn [mbind option_bind app]. rewrite lit_ok. cbn [mbind option_bind].
  rewrite (many1_run (is_digit py) d) by (exact Hd || exact Hr).
  reflexivity.
Qed.

(** [split] gives back the four runs of a dotted quad. *)
Lemma split_quad a b c d :
  quad_runs py (a, b, c, d) = true ->
  split 46 (quad_text (a, b, c, d)) = [a; b; c; d].
Proof.
  unfold quad_runs, quad_text.
  intros [[[Ha Hb]%andb_true_iff Hc]%andb_true_iff Hd]%andb_true_iff.
  cbn [app].
  rewrite !split_run by now apply digit_run_no_dot.
  rewrite split_last by now apply digit_run_no_dot.
  reflexivity.
Qed.

(** On a dotted quad of digit runs, [is_private_ip] is the test of the
    first two octets, when [int] reads them. *)
Lemma is_private_ip_quad a b c d :
  quad_runs py (a, b, c, d) = true ->
  is_private_ip py (quad_text (a, b, c, d)) = quad_private py (a, b, c, d).
Proof.
  intros Hq. unfold is_private_ip, quad_private.
  rewrite (split_quad _ _ _ _ Hq). cbn [length nth Nat.eqb negb].
  unfold quad_runs in Hq.
  apply andb_true_iff in Hq as [[[Ha Hb]%andb_true_iff _]%andb_true_iff _].
  rewrite (TextFacts.py_int_run py _ Ha), (TextFacts.py_int_run py _ Hb).
  unfold checked, readable. cbn [fst snd].
  destruct (over_limit py (length a)); [reflexivity|].
  destruct (over_limit py (length b)); [reflexivity|].
  unfold private_prefix. cbn [negb andb].
  generalize (run_value py a) (run_value py b). intros x y.
  destruct (x =? 10), (x =? 127), (x =? 172), (16 <=? y), (y <=? 31),
    (x =? 192), (y =? 168); reflexivity.
Qed.

Lemma stops_quad q (r : str) :
  quad_runs py q = true -> stops (is_space py) (quad_text q ++ r) = true.
Proof.
  destruct q as [[[a b] c] d]. unfold quad_runs, quad_text.
  intros [[[Ha _]%andb_true_iff _]%andb_true_iff _]%andb_true_iff.
  rewrite <- !app_assoc.
  apply (stops_run (is_space py) (is_digit py));
    [apply TextFacts.digit_not_space | exact Ha].
Qed.

(** The pattern matches every line of its shape, with the expected groups. *)
Lemma pattern_match_shape sh :
  well_shaped py sh = true ->
  pattern_match py (line_text sh) = Some (shape_groups sh).
Proof.
  unfold well_shaped. rewrite !andb_true_iff.
  intros [[[[[[[[[[Hind Hproto] Hg1] Hl] Hlp] Hg2] Hr] Hrp] Hg3] Hst] Hrest].
  unfold line_text, pattern_match.
  destruct (proto_ok (sh_protocol sh)
              (sh_gap1 sh ++ quad_text (sh_local sh) ++ [58%N] ++ sh_local_port sh
               ++ sh_gap2 sh ++ quad_text (sh_remote sh) ++ [58%N]
               ++ sh_remote_port sh ++ sh_gap3 sh ++ sh_state sh ++ sh_rest sh)
              Hproto) as [Hp Hps].
  unfold many. rewrite (span_run _ _ _ Hind Hps). cbn [mbind option_bind].
  rewrite Hp. cbn [mbind option_bind].
  rewrite (many1_run (is_space py) (sh_gap1 sh))
    by (exact Hg1 || now apply stops_quad).
  cbn [mbind option_bind].
  rewrite (dotted_quad_ok (sh_local sh)) by (exact Hl || reflexivity).
  cbn [mbind option_bind app]. rewrite lit_ok. cbn [mbind option_bind].
  rewrite (many1_run (is_digit py) (sh_local_port sh))
    by (exact Hlp || now apply (stops_run (is_digit py) (is_space py));
                       [apply TextFacts.space_not_digit | exact Hg2]).
  cbn [mbind option_bind].
  rewrite (many1_run (is_space py) (sh_gap2 sh))
    by (exact Hg2 || now apply stops_quad).
  cbn [mbind option_bind].
  rewrite (dotted_quad_ok (sh_remote sh)) by (exact Hr || reflexivity).
  cbn [mbind option_bind app]. rewrite lit_ok. cbn [mbind option_bind].
  rewrite (many1_run (is_digit py) (sh_remote_port sh))
    by (exact Hrp || now apply (stops_run (is_digit py) (is_space py));
                       [apply TextFacts.space_not_digit | exact Hg3]).
  cbn [mbind option_bind].
  rewrite (many1_run (is_space py) (sh_gap3 sh))
    by (exact Hg3 || now apply (stops_run (is_space py) (is_word py));
                       [apply TextFacts.word_not_space | exact Hst]).
  cbn [mbind option_bind].
  rewrite (many1_run (is_word py) (sh_state sh)) by (exact Hst || exact Hrest).
  reflexivity.
Qed.

Lemma dotted_quad_spec s t r :
  dotted_quad py s = Some (t, r) ->
  exists q, t = quad_text q /\ quad_runs py q = true
            /\ s = t ++ r /\ stops (is_digit py) r = true.
Proof.
  unfold dotted_quad. intros H.
  do 7 step_scan H. injection H as <- <-.
  repeat match goal with
         | E : many1 _ _ = Some _ |- _ => apply many1_spec in E as (-> & ? & ?)
         | E : lit _ _ = Some _ |- _ => apply lit_spec in E as ->
         end.
  eexists (_, _, _, _). split; [reflexivity|].
  unfold quad_runs, quad_text, digit_run in *. cbv beta iota.
  rewrite !andb_true_iff.
  repeat split; try assumption.
  repeat (rewrite <- app_assoc || rewrite <- app_comm_cons). reflexivity.
Qed.

(** The pattern matches exactly the lines of its shape. *)
Lemma pattern_match_spec line g :
  pattern_match py line = Some g <->
  exists sh, well_shaped py sh = true /\ line = line_text sh /\ g = shape_groups sh.
Proof.
  split.
  - unfold pattern_match, many. intros H.
    destruct (span (is_space py) line) as [ind s0] eqn:E0.
    cbn [mbind option_bind] in H.
    apply span_spec in E0 as (-> & Hind & _).
    do 11 step_scan H. injection H as <-.
    repeat match goal with
           | E : many1 _ _ = Some _ |- _ => apply many1_spec in E as (-> & ? & ?)
           | E : lit _ _ = Some _ |- _ => apply lit_spec in E as ->
           | E : proto _ = Some _ |- _ => apply proto_spec in E as (-> & ?)
           | E : dotted_quad _ _ = Some _ |- _ =>
               apply dotted_quad_spec in E as (? & -> & ? & -> & ?)
           end.
    eexists (LineShape ind _ _ _ _ _ _ _ _ _ _).
    split; [|split; reflexivity].
    unfold well_shaped. simpl. unfold digit_run in *.
    rewrite !andb_true_iff. repeat split; assumption.
  - intros (sh & Hsh & -> & ->). now apply pattern_match_shape.
Qed.

(** What the groups of a match are made of. *)
Lemma pattern_match_sound line g :
  pattern_match py line = Some g ->
  (bool_decide (g_protocol g = txt "TCP") || bool_decide (g_protocol g = txt "UDP"))
  = true
  /\ (exists q, g_local_ip g = quad_text q /\ quad_runs py q = true)
  /\ digit_run py (g_local_port g) = true
  /\ (exists q, g_remote_ip g = quad_text q /\ quad_runs py q = true)
  /\ digit_run py (g_remote_port g) = true
  /\ run_of (is_word py) (g_state g) = true.
Proof.
  intros (sh & Hsh & -> & ->)%pattern_match_spec.
  unfold well_shaped in Hsh. rewrite !andb_true_iff in Hsh. simpl.
  destruct_and?.
  split; [assumption|].
  split; [exists (sh_local sh); auto|]. split; [assumption|].
  split; [exists (sh_remote sh); auto|]. auto.
Qed.

End WithInterpreter.

(** A state that ends in a Latin-1 letter is captured whole, and white
    space beyond ASCII separates the fields. *)
Example pattern_match_beyond_ascii :
  g_state <$> pattern_match sample
                (txt "TCP" ++ [160%N] ++ txt "1.2.3.4:5 6.7.8.9:10 ABH"
                 ++ [214%N] ++ txt "REN")
  = Some (txt "ABH" ++ [214%N] ++ txt "REN").
Proof. vm_compute. reflexivity. Qed.

End PatternFacts.

(** ** Private ranges *)

Lemma run_of_forallb (p : N -> bool) s : Text.run_of p s = true -> forallb p s = true.
Proof. destruct s; [discriminate | intros H; exact H]. Qed.

Lemma octet_spec py s a :
  octet s = Some a -> Text.py_int py s = Some a /\ 0 <= a <= 255.
Proof.
  unfold octet. destruct (Text.run_of Text.c_isdigit s) eqn:Hrun; [|discriminate].
  destruct (Nat.leb (length s) 3) eqn:Hlen; [|discriminate].
  destruct (ascii_value s <=? 255) eqn:Hle; [|discriminate].
  intros [= <-]. apply Nat.leb_le in Hlen. apply Z.leb_le in Hle.
  assert (Hv : Text.run_value py s = ascii_value s)
    by (apply TextFacts.run_value_ascii; now apply run_of_forallb).
  split.
  - rewrite (TextFacts.py_int_run py s (TextFacts.ascii_digits_run py s Hrun)).
    unfold Text.checked. cbn [fst snd].
    rewrite TextFacts.short_run_readable by lia. now rewrite Hv.
  - split; [|exact Hle]. rewrite <- Hv. apply TextFacts.run_value_nonneg.
Qed.

(** The tests of [is_private_ip], in the order of the code, are the four
    prefix tests. *)
Lemma private_tests_prefix first second :
  (if first =? 10 then true
   else if (first =? 172) && (16 <=? second) && (second <=? 31) then true
   else if (first =? 192) && (second =? 168) then true
   else if first =? 127 then true else false)
  = private_prefix first second.
Proof.
  unfold private_prefix.
  destruct (first =? 10), (first =? 127), (first =? 172), (16 <=? second),
    (second <=? 31), (first =? 192), (second =? 168); reflexivity.
Qed.

(** The four prefix tests on the first two octets are membership in the
    four blocks. *)
Lemma private_prefix_blocks a b c d :
  0 <= a <= 255 -> 0 <= b <= 255 -> 0 <= c <= 255 -> 0 <= d <= 255 ->
  private_prefix a b = in_private_blocks (ipv4_value a b c d).
Proof.
  intros Ha Hb Hc Hd.
  unfold private_prefix, in_private_blocks, in_block, ipv4_value.
  rewrite !Z.shiftr_div_pow2 by lia.
  change (32 - 8) with 24. change (32 - 12) with 20. change (32 - 16) with 16.
  change ((10 * 2 ^ 24 + 0 * 2 ^ 16 + 0 * 2 ^ 8 + 0) / 2 ^ 24) with 10.
  change ((127 * 2 ^ 24 + 0 * 2 ^ 16 + 0 * 2 ^ 8 + 0) / 2 ^ 24) with 127.
  change ((172 * 2 ^ 24 + 16 * 2 ^ 16 + 0 * 2 ^ 8 + 0) / 2 ^ 20) with 2753.
  change ((192 * 2 ^ 24 + 168 * 2 ^ 16 + 0 * 2 ^ 8 + 0) / 2 ^ 16) with 49320.
  change (2 ^ 24) with 16777216. change (2 ^ 20) with 1048576.
  change (2 ^ 16) with 65536. change (2 ^ 8) with 256.
  assert (H24 : (a * 16777216 + b * 65536 + c * 256 + d) / 16777216 = a)
    by (symmetry; apply Z.div_unique with (r := b * 65536 + c * 256 + d); lia).
  assert (H16 : (a * 16777216 + b * 65536 + c * 256 + d) / 65536 = a * 256 + b)
    by (symmetry; apply Z.div_unique with (r := c * 256 + d); lia).
  assert (H20 : (a * 16777216 + b * 65536 + c * 256 + d) / 1048576 = a * 16 + b / 16).
  { symmetry. apply Z.div_unique with (r := (b mod 16) * 65536 + c * 256 + d).
    - pose proof (Z.mod_pos_bound b 16 ltac:(lia)). lia.
    - pose proof (Z.div_mod b 16 ltac:(lia)). lia. }
  rewrite H24, H16, H20.
  assert (Hq : 0 <= b / 16 <= 15)
    by (split; [apply Z.div_pos; lia | apply Z.lt_succ_r, Z.div_lt_upper_bound; lia]).
  assert (E1 : (a =? 172) && (16 <=? b) && (b <=? 31) = (a * 16 + b / 16 =? 2753)).
  { apply eq_true_iff_eq. rewrite !andb_true_iff, !Z.eqb_eq, !Z.leb_le.
    pose proof (Z.div_mod b 16 ltac:(lia)).
    pose proof (Z.mod_pos_bound b 16 ltac:(lia)). lia. }
  assert (E2 : (a =? 192) && (b =? 168) = (a * 256 + b =? 49320)).
  { apply eq_true_iff_eq. rewrite !andb_true_iff, !Z.eqb_eq. lia. }
  rewrite E1, E2.
  destruct (a =? 10), (a =? 127), (a * 16 + b / 16 =? 2753),
    (a * 256 + b =? 49320); reflexivity.
Qed.

(** On four parts the answer depends on the first two only: it is the
    prefix test of the integers that [int] reads there, and [False] when
    [int] raises on one of them. *)
Lemma is_private_ip_four_parts py s p0 p1 p2 p3 :
  Text.split 46 s = [p0; p1; p2; p3] ->
  is_private_ip py s
  = match Text.py_int py p0, Text.py_int py p1 with
    | Some first, Some second => private_prefix first second
    | _, _ => false
    end.
Proof.
  intros H. unfold is_private_ip. rewrite H. cbn [length Nat.eqb negb nth].
  destruct (Text.py_int py p0) as [first|]; [|reflexivity].
  destruct (Text.py_int py p1) as [second|]; [|reflexivity].
  apply private_tests_prefix.
Qed.

Example is_private_ip_samples py :
  map (is_private_ip py)
      [txt "10.0.0.5"; txt "172.16.0.1"; txt "172.31.255.255"; txt "172.32.0.1";
       txt "192.168.1.1"; txt "192.169.1.1"; txt "127.0.0.1"; txt "93.184.216.34";
       txt "999.1.2.3"; txt "10.0.0.999"; txt "10.0.x.1"; txt "10.0..";
       txt "::1"; txt "10.0.0"; txt "10.x.0.1"; txt "a.b.c.d"; txt "1.2.3.4.5"]
  = [true; true; true; false; true; false; true; false; false; true; true; true;
     false; false; false; false; false].
Proof. reflexivity. Qed.

(** On a well-formed address the answer is membership in the four blocks. *)
Lemma is_private_ip_well_formed py s a b c d :
  parse_ipv4 s = Some (a, b, c, d) ->
  is_private_ip py s = in_private_blocks (ipv4_value a b c d).
Proof.
  intros H. unfold parse_ipv4 in H.
  destruct (Text.split 46 s) as [|p0 [|p1 [|p2 [|p3 [|? ?]]]]] eqn:Hs;
    try discriminate H.
  destruct (octet p0) as [a'|] eqn:H0; [|discriminate H].
  destruct (octet p1) as [b'|] eqn:H1; [|discriminate H].
  destruct (octet p2) as [c'|] eqn:H2; [|discriminate H].
  destruct (octet p3) as [d'|] eqn:H3; [|discriminate H].
  cbn [mbind option_bind] in H. injection H as -> -> -> ->.
  apply (octet_spec py) in H0 as [Ia Ra], H1 as [Ib Rb], H2 as [_ Rc], H3 as [_ Rd].
  rewrite (is_private_ip_four_parts py s _ _ _ _ Hs), Ia, Ib.
  now apply private_prefix_blocks.
Qed.

(** A string with more or fewer than four parts is not private. *)
Lemma is_private_ip_not_four_parts py s :
  length (Text.split 46 s) <> 4%nat -> is_private_ip py s = false.
Proof.
  intros H. unfold is_private_ip.
  destruct (Nat.eqb (length (Text.split 46 s)) 4) eqn:E; [|reflexivity].
  apply Nat.eqb_eq in E. contradiction.
Qed.

(** Four parts need not be four octets: 10.0.x.1 and 10.0.0.999 are not
    well-formed addresses, and [is_private_ip], which reads the first two
    parts only, answers [True] on both. *)
Lemma is_private_ip_four_parts_not_octets :
  parse_ipv4 (txt "10.0.x.1") = None
  /\ parse_ipv4 (txt "10.0.0.999") = None
  /\ forall py,
       is_private_ip py (txt "10.0.x.1") = true
       /\ is_private_ip py (txt "10.0.0.999") = true.
Proof. repeat split; reflexivity. Qed.

(** C2, amended. For a well-formed dotted quad a.b.c.d (four octets of one
    to three decimal digits, each at most 255) [is_private_ip] answers true
    exactly when the address lies in 10.0.0.0/8, 172.16.0.0/12,
    192.168.0.0/16 or 127.0.0.0/8, so it answers false on every other
    well-formed address.  A string that does not split into four parts at
    its dots is not private.  A string of four parts is classified by its
    first two parts alone: it is not private when [int] raises on one of
    them, and otherwise it is private exactly when the two integers read
    10.x, 127.x, 172.16-31 or 192.168, whatever the last two parts are. *)
Theorem is_private_ip_exactly_four_blocks (py : interpreter) (s : str) :
  (forall a b c d, parse_ipv4 s = Some (a, b, c, d) ->
     (is_private_ip py s = true <-> in_private_blocks (ipv4_value a b c d) = true))
  /\ (length (Text.split 46 s) <> 4%nat -> is_private_ip py s = false)
  /\ (forall p0 p1 p2 p3, Text.split 46 s = [p0; p1; p2; p3] ->
        is_private_ip py s
        = match Text.py_int py p0, Text.py_int py p1 with
          | Some first, Some second => private_prefix first second
          | _, _ => false
          end).
Proof.
  split; [|split].
  - intros a b c d H. now rewrite (is_private_ip_well_formed py _ _ _ _ _ H).
  - apply is_private_ip_not_four_parts.
  - apply is_private_ip_four_parts.
Qed.

Lemma is_private_ip_exactly_four_blocks_witness :
  parse_ipv4 (txt "172.20.1.7") = Some (172, 20, 1, 7)
  /\ (is_private_ip sample (txt "172.20.1.7") = true
      <-> in_private_blocks (ipv4_value 172 20 1 7) = true)
  /\ length (Text.split 46 (txt "::1")) <> 4%nat
  /\ is_private_ip sample (txt "::1") = false
  /\ Text.split 46 (txt "192.168.x.y") = [txt "192"; txt "168"; txt "x"; txt "y"]
  /\ is_private_ip sample (txt "192.168.x.y")
     = match Text.py_int sample (txt "192"), Text.py_int sample (txt "168") with
       | Some first, Some second => private_prefix first second
       | _, _ => false
       end.
Proof.
  split; [reflexivity|]. split.
  - apply (proj1 (is_private_ip_exactly_four_blocks sample (txt "172.20.1.7"))).
    reflexivity.
  - split; [vm_compute; lia|]. split.
    + apply (proj1 (proj2 (is_private_ip_exactly_four_blocks sample (txt "::1")))).
      vm_compute. lia.
    + split; [reflexivity|].
      apply (proj2 (proj2 (is_private_ip_exactly_four_blocks sample
                             (txt "192.168.x.y")))
               (txt "192") (txt "168") (txt "x") (txt "y")).
      reflexivity.
Defined.

(** ** Service names *)

Lemma PORT_SERVICES_keys_distinct : NoDup (PORT_SERVICES_items.*1).
Proof. apply (bool_decide_unpack _). vm_compute. exact I. Qed.

(** C6. [get_service_name] is a total function of the port: on a port of the
    static table it gives the name the table pairs with it (443 gives
    "HTTPS"), and on any other port it gives "Unknown". *)
Theorem get_service_name_total (port : Z) :
  (forall name, (port, name) ∈ PORT_SERVICES_items -> get_service_name port = name)
  /\ ((port ∉ PORT_SERVICES_items.*1) -> get_service_name port = txt "Unknown")
  /\ get_service_name 443 = txt "HTTPS".
Proof.
  unfold get_service_name, PORT_SERVICES. split; [|split].
  - intros name Hin.
    rewrite (elem_of_list_to_map_1 _ _ _ PORT_SERVICES_keys_distinct Hin).
    reflexivity.
  - intros Hout. rewrite (not_elem_of_list_to_map_1 _ _ Hout). reflexivity.
  - reflexivity.
Qed.

Lemma get_service_name_total_witness :
  (3306, txt "MySQL") ∈ PORT_SERVICES_items
  /\ get_service_name 3306 = txt "MySQL"
  /\ (51000 ∉ PORT_SERVICES_items.*1)
  /\ get_service_name 51000 = txt "Unknown".
Proof.
  assert (Hin : (3306, txt "MySQL") ∈ PORT_SERVICES_items)
    by (apply (bool_decide_unpack _); vm_compute; exact I).
  assert (Hout : 51000 ∉ (PORT_SERVICES_items.*1))
    by (apply (bool_decide_unpack _); vm_compute; exact I).
  split; [exact Hin|]. split.
  - exact (proj1 (get_service_name_total 3306) (txt "MySQL") Hin).
  - split; [exact Hout|].
    exact (proj1 (proj2 (get_service_name_total 51000)) Hout).
Defined.

(** ** The resolver and its cache *)

Section Resolver.

Variable provider : nat -> str -> response.

Lemma network_calls_snoc t e :
  network_calls (t ++ [e]) = (network_calls t + if is_request e then 1 else 0)%nat.
Proof.
  unfold network_calls. rewrite filter_app, length_app.
  destruct e; simpl; reflexivity.
Qed.

Lemma delays_snoc t e :
  delays (t ++ [e]) = (delays t + if is_sleep e then 1 else 0)%nat.
Proof.
  unfold delays. rewrite filter_app, length_app.
  destruct e; simpl; reflexivity.
Qed.

(** A call on a cached address changes nothing and returns the entry. *)
Lemma get_ip_location_hit ip w loc :
  ip_locations w !! ip = Some loc ->
  get_ip_location provider ip w = (Some loc, w).
Proof. intros H. unfold get_ip_location. now rewrite H. Qed.

(** A call on an address that is not cached sleeps once, asks the provider
    once, and caches the location exactly when it returns one. *)
Lemma get_ip_location_miss ip w :
  ip_locations w !! ip = None ->
  let '(r, w') := get_ip_location provider ip w in
  trace w' = (trace w ++ [Sleep 1500; HttpGet (api_url ip) 5])%list
  /\ connections w' = connections w
  /\ port_services w' = port_services w
  /\ match r with
     | Some loc =>
         ip_locations w' = <[ip := loc]> (ip_locations w)
         /\ ip_order w'
            = if bool_decide (ip ∈ ip_order w) then ip_order w
              else (ip_order w ++ [ip])%list
     | None => ip_locations w' = ip_locations w /\ ip_order w' = ip_order w
     end.
Proof.
  intros H. unfold get_ip_location. rewrite H.
  destruct (provider _ _) as [code| | | |data]; simpl;
    try (rewrite <- app_assoc; auto).
  destruct (bool_decide (d_status data = _)); simpl; rewrite <- app_assoc; auto.
Qed.

(** Whatever a call returns is cached afterwards. *)
Lemma get_ip_location_cached ip w loc w' :
  get_ip_location provider ip w = (Some loc, w') ->
  ip_locations w' !! ip = Some loc.
Proof.
  destruct (ip_locations w !! ip) as [loc0|] eqn:Hc.
  - rewrite (get_ip_location_hit _ _ _ Hc). now intros [= <- <-].
  - pose proof (get_ip_location_miss ip w Hc) as Hm.
    intros Heq. rewrite Heq in Hm. destruct Hm as (_ & _ & _ & -> & _).
    apply lookup_insert_eq.
Qed.

(** C1. When the first resolution of an address (one that finds it absent
    from the cache) succeeds, a second call with the same address returns the
    same location and leaves the state as it was, history included: no
    second request, no second delay.  Over both calls the history grows by
    exactly one request and one delay. *)
Theorem resolver_cache_idempotent (ip : str) (w w1 : wiz) (loc : location) :
  ip_locations w !! ip = None ->
  get_ip_location provider ip w = (Some loc, w1) ->
  let '(r2, w2) := get_ip_location provider ip w1 in
  r2 = Some loc
  /\ w2 = w1
  /\ network_calls (trace w2) = S (network_calls (trace w))
  /\ delays (trace w2) = S (delays (trace w)).
Proof.
  intros Hmiss H1.
  rewrite (get_ip_location_hit _ _ _ (get_ip_location_cached _ _ _ _ H1)).
  pose proof (get_ip_location_miss ip w Hmiss) as Hm. rewrite H1 in Hm.
  destruct Hm as (Ht & _). rewrite Ht.
  change [Sleep 1500; HttpGet (api_url ip) 5]
    with ([Sleep 1500] ++ [HttpGet (api_url ip) 5])%list.
  rewrite app_assoc, network_calls_snoc, network_calls_snoc,
    delays_snoc, delays_snoc. simpl. repeat split; lia.
Qed.

(** C3. When the request for an address that is not cached comes to an HTTP
    error, a transport error or time-out, malformed JSON, or a JSON status
    other than "success", the resolver returns nothing and leaves the cache
    as it was, so the address is still absent; a later call with the same
    address sleeps and asks the provider again. *)
Theorem resolver_failure_leaves_cache (ip : str) (w : wiz) :
  ip_locations w !! ip = None ->
  failed (provider (network_calls (trace w)) (api_url ip)) ->
  let '(r, w1) := get_ip_location provider ip w in
  r = None
  /\ ip_locations w1 = ip_locations w
  /\ ip_locations w1 !! ip = None
  /\ trace (snd (get_ip_location provider ip w1))
     = (trace w1 ++ [Sleep 1500; HttpGet (api_url ip) 5])%list
  /\ network_calls (trace (snd (get_ip_location provider ip w1)))
     = S (network_calls (trace w1)).
Proof.
  intros Hmiss Hfail.
  assert (Hr : fst (get_ip_location provider ip w) = None).
  { unfold get_ip_location. rewrite Hmiss. simpl.
    rewrite network_calls_snoc. simpl. rewrite Nat.add_0_r.
    destruct (provider _ _) as [code| | | |data]; simpl; try reflexivity.
    simpl in Hfail. rewrite bool_decide_eq_false_2 by exact Hfail. reflexivity. }
  pose proof (get_ip_location_miss ip w Hmiss) as Hm.
  destruct (get_ip_location provider ip w) as [r w1]. simpl in Hr. subst r.
  destruct Hm as (_ & _ & _ & Hc & _).
  assert (Hmiss1 : ip_locations w1 !! ip = None) by now rewrite Hc.
  pose proof (get_ip_location_miss ip w1 Hmiss1) as Hm1.
  destruct (get_ip_location provider ip w1) as [r' w2]. simpl.
  destruct Hm1 as (Ht & _).
  repeat split; auto. rewrite Ht.
  change [Sleep 1500; HttpGet (api_url ip) 5]
    with ([Sleep 1500] ++ [HttpGet (api_url ip) 5])%list.
  rewrite app_assoc, !network_calls_snoc. simpl. lia.
Qed.

End Resolver.

Lemma resolver_cache_idempotent_witness :
  ip_locations init !! txt "93.184.216.34" = None
  /\ get_ip_location provider_success (txt "93.184.216.34") init
     = (Some scenario_location, scenario_resolved)
  /\ (let '(r2, w2) :=
        get_ip_location provider_success (txt "93.184.216.34") scenario_resolved in
      r2 = Some scenario_location
      /\ w2 = scenario_resolved
      /\ network_calls (trace w2) = S (network_calls (trace init))
      /\ delays (trace w2) = S (delays (trace init))).
Proof.
  assert (H0 : ip_locations init !! txt "93.184.216.34" = None) by reflexivity.
  assert (H1 : get_ip_location provider_success (txt "93.184.216.34") init
               = (Some scenario_location, scenario_resolved))
    by (vm_compute; reflexivity).
  split; [exact H0|]. split; [exact H1|].
  exact (resolver_cache_idempotent provider_success (txt "93.184.216.34") init
           scenario_resolved scenario_location H0 H1).
Defined.

Lemma resolver_failure_leaves_cache_witness :
  let '(r, w1) := get_ip_location provider_fail (txt "203.0.113.9") init in
  r = None
  /\ ip_locations w1 = ip_locations init
  /\ ip_locations w1 !! txt "203.0.113.9" = None
  /\ trace (snd (get_ip_location provider_fail (txt "203.0.113.9") w1))
     = (trace w1 ++ [Sleep 1500; HttpGet (api_url (txt "203.0.113.9")) 5])%list
  /\ network_calls (trace (snd (get_ip_location provider_fail (txt "203.0.113.9") w1)))
     = S (network_calls (trace w1)).
Proof.
  apply (resolver_failure_leaves_cache provider_fail (txt "203.0.113.9") init).
  - reflexivity.
  - simpl. discriminate.
Defined.

(** ** Parsing, filtering and the port table *)

Section Analysis.

Variable py : interpreter.
Variable provider : nat -> str -> response.
Variable iter_set : gset str -> list str.

Lemma get_ip_location_frame ip w :
  connections (snd (get_ip_location provider ip w)) = connections w
  /\ port_services (snd (get_ip_location provider ip w)) = port_services w.
Proof.
  destruct (ip_locations w !! ip) as [loc|] eqn:Hc.
  - rewrite (get_ip_location_hit _ _ _ _ Hc). auto.
  - pose proof (get_ip_location_miss provider ip w Hc) as Hm.
    destruct (get_ip_location provider ip w) as [r w']. simpl. tauto.
Qed.

Lemma resolve_all_frame ips : forall w,
  connections (resolve_all provider w ips) = connections w
  /\ port_services (resolve_all provider w ips) = port_services w.
Proof.
  induction ips as [|ip ips IH]; intros w; simpl; [auto|].
  destruct (IH (snd (get_ip_location provider ip w))) as [-> ->].
  apply get_ip_location_frame.
Qed.

Lemma record_all cs : forall w,
  connections (foldl record_service w cs) = connections w
  /\ port_services (foldl record_service w cs)
     = foldl add_entry (port_services w) cs.
Proof.
  induction cs as [|c cs IH]; intros w; simpl; [auto|].
  destruct (IH (record_service w c)) as [-> ->]. auto.
Qed.

Lemma record_all_frame cs : forall w,
  ip_locations (foldl record_service w cs) = ip_locations w
  /\ ip_order (foldl record_service w cs) = ip_order w
  /\ trace (foldl record_service w cs) = trace w.
Proof.
  induction cs as [|c cs IH]; intros w; simpl; [auto|].
  destruct (IH (record_service w c)) as (-> & -> & ->). auto.
Qed.

(** [analyze_connections] parses, and then looks up and records. *)
Lemma analyze_connections_unfold lines w :
  analyze_connections py provider iter_set lines w
  = (fun cs => analysed provider iter_set cs w) <$> parse_netstat_output py lines.
Proof.
  unfold analyze_connections.
  destruct (parse_netstat_output py lines) as [cs|]; [|reflexivity].
  cbn [mbind option_bind fmap option_fmap option_map]. f_equal.
  unfold analysed, lookup_order. cbv zeta.
  change (connections (set_connections cs w)) with cs.
  destruct cs as [|c cs]; [reflexivity|].
  fold (remote_ips (c :: cs)).
  fold (resolve_all provider (set_connections (c :: cs) w)
          (iter_set (remote_ips (c :: cs)))).
  now rewrite (proj1 (resolve_all_frame _ _)).
Qed.

Lemma analyze_connections_Some lines w w' :
  analyze_connections py provider iter_set lines w = Some w' <->
  exists cs, parse_netstat_output py lines = Some cs
             /\ w' = analysed provider iter_set cs w.
Proof.
  rewrite analyze_connections_unfold.
  destruct (parse_netstat_output py lines) as [cs|]; simpl; split.
  - intros [= <-]. eauto.
  - intros (cs' & [= <-] & ->). reflexivity.
  - discriminate.
  - intros (cs' & [=] & _).
Qed.

(** The connection set of the aggregator is the parser's output. *)
Lemma analysed_connections cs w :
  connections (analysed provider iter_set cs w) = cs.
Proof.
  unfold analysed.
  now rewrite (proj1 (record_all _ _)), (proj1 (resolve_all_frame _ _)).
Qed.

Lemma analysed_port_services cs w :
  port_services (analysed provider iter_set cs w)
  = foldl add_entry (port_services w) cs.
Proof.
  unfold analysed.
  now rewrite (proj2 (record_all _ _)), (proj2 (resolve_all_frame _ _)).
Qed.

(** The cache and the history after the analysis are those after the loop
    over the addresses. *)
Lemma analysed_lookups cs w :
  ip_locations (analysed provider iter_set cs w)
  = ip_locations (resolve_all provider (set_connections cs w)
                    (lookup_order iter_set cs))
  /\ ip_order (analysed provider iter_set cs w)
     = ip_order (resolve_all provider (set_connections cs w)
                   (lookup_order iter_set cs))
  /\ trace (analysed provider iter_set cs w)
     = trace (resolve_all provider (set_connections cs w)
                (lookup_order iter_set cs)).
Proof. apply record_all_frame. Qed.

Lemma parse_netstat_output_elem lines : forall cs c,
  parse_netstat_output py lines = Some cs ->
  (c ∈ cs <-> exists line, line ∈ lines /\ parse_line py line = Some (Some c)).
Proof.
  induction lines as [|l ls IH]; intros cs c; simpl.
  - intros [= <-]. split; [intros H; inversion H | intros (? & H & _); inversion H].
  - destruct (parse_line py l) as [r|] eqn:E; [|discriminate].
    destruct (parse_netstat_output py ls) as [cs'|]; [|discriminate].
    cbn [mbind option_bind]. intros [= <-].
    specialize (IH cs' c eq_refl).
    destruct r as [c'|].
    + rewrite elem_of_cons, IH. split.
      * intros [-> | (line & Hin & Hp)]; [exists l | exists line];
          split; auto; constructor; auto.
      * intros (line & Hin & Hp). apply elem_of_cons in Hin as [-> | Hin].
        -- left. congruence.
        -- right. eauto.
    + rewrite IH. split.
      * intros (line & Hin & Hp). exists line. split; [now constructor|auto].
      * intros (line & Hin & Hp). apply elem_of_cons in Hin as [-> | Hin].
        -- congruence.
        -- eauto.
Qed.

(** C4. On the three lines of the scenario the pattern matches two lines, the
    filter keeps only the second (remote address 93.184.216.34), and after
    [analyze_connections] the list of [port_services] at 443 has one entry,
    whose service is "HTTPS". *)
Theorem scenario_parse_filter_aggregate :
  omap (Pattern.pattern_match py) scenario_lines
  = [Groups (txt "TCP") (txt "0.0.0.0") (txt "80") (txt "0.0.0.0") (txt "0")
            (txt "LISTENING");
     Groups (txt "TCP") (txt "10.0.0.5") (txt "51000") (txt "93.184.216.34")
            (txt "443") (txt "ESTABLISHED")]
  /\ parse_netstat_output py scenario_lines = Some [scenario_connection]
  /\ exists w,
       analyze_connections py provider iter_set scenario_lines init = Some w
       /\ connections w = [scenario_connection]
       /\ port_services w !! 443
          = Some [ServiceEntry (txt "93.184.216.34") (txt "HTTPS") (txt "TCP")
                               (txt "ESTABLISHED")].
Proof.
  assert (E : parse_netstat_output py scenario_lines = Some [scenario_connection])
    by (vm_compute; reflexivity).
  split; [vm_compute; reflexivity|].
  split; [exact E|].
  rewrite analyze_connections_unfold, E. eexists. split; [reflexivity|].
  rewrite analysed_connections, analysed_port_services.
  split; [reflexivity | vm_compute; reflexivity].
Qed.

(** A record is appended for a line that matched, whose remote address is
    none of the literals and is not private, and whose ports [int] read. *)
Lemma parse_line_record line conn :
  parse_line py line = Some (Some conn) ->
  exists g,
    Pattern.pattern_match py line = Some g
    /\ (g_remote_ip g ∉ skipped_literals)
    /\ is_private_ip py (g_remote_ip g) = false
    /\ Text.py_int py (g_local_port g) = Some (local_port conn)
    /\ Text.py_int py (g_remote_port g) = Some (remote_port conn)
    /\ protocol conn = g_protocol g /\ local_ip conn = g_local_ip g
    /\ remote_ip conn = g_remote_ip g /\ state conn = g_state g.
Proof.
  unfold parse_line.
  destruct (Pattern.pattern_match py line) as [g|] eqn:Hm; [|discriminate].
  destruct (bool_decide (g_remote_ip g ∈ skipped_literals)) eqn:Hlit;
    [discriminate|].
  destruct (is_private_ip py (g_remote_ip g)) eqn:Hpriv; [discriminate|].
  cbn [negb].
  destruct (Text.py_int py (g_local_port g)) as [lp|] eqn:Hlp; [|discriminate].
  destruct (Text.py_int py (g_remote_port g)) as [rp|] eqn:Hrp; [|discriminate].
  cbn [mbind option_bind]. intros [= <-]. exists g.
  apply bool_decide_eq_false in Hlit.
  split; [reflexivity|]. split; [exact Hlit|]. split; [exact Hpriv|].
  split; [exact Hlp|]. split; [exact Hrp|].
  repeat split; reflexivity.
Qed.


End Analysis.


(** ** Countries *)

Section Countries.

Variable cache : gmap str location.

Lemma count_country_of country cs :
  count (fun conn => bool_decide (country_of cache (remote_ip conn) = country)) cs
  = (count (cached_in cache country) cs
     + if bool_decide (country = txt "Unknown")
       then count (not_cached cache) cs else 0)%nat.
Proof.
  induction cs as [|conn cs IH]; simpl.
  - now destruct (bool_decide _).
  - rewrite IH. unfold country_of, cached_in, not_cached.
    destruct (cache !! remote_ip conn) as [loc|].
    + destruct (bool_decide (country = txt "Unknown")); lia.
    + destruct (bool_decide (country = txt "Unknown")) eqn:E.
      * apply bool_decide_eq_true in E. subst country.
        rewrite bool_decide_eq_true_2 by reflexivity. lia.
      * apply bool_decide_eq_false in E.
        rewrite bool_decide_eq_false_2 by congruence. lia.
Qed.

Lemma foldl_count_country cs : forall counts country,
  default 0%nat (foldl (count_country cache) counts cs !! country)
  = (default 0%nat (counts !! country)
     + count (fun conn => bool_decide (country_of cache (remote_ip conn) = country)) cs)%nat.
Proof.
  induction cs as [|conn cs IH]; intros counts country; simpl; [lia|].
  rewrite IH. unfold count_country.
  destruct (bool_decide (country_of cache (remote_ip conn) = country)) eqn:E.
  - apply bool_decide_eq_true in E. rewrite E, lookup_insert_eq. simpl. lia.
  - apply bool_decide_eq_false in E. rewrite lookup_insert_ne by exact E. lia.
Qed.

Lemma foldl_count_country_positive cs : forall counts,
  (forall country n, counts !! country = Some n -> (0 < n)%nat) ->
  forall country n,
    foldl (count_country cache) counts cs !! country = Some n -> (0 < n)%nat.
Proof.
  induction cs as [|conn cs IH]; intros counts Hpos; simpl; [exact Hpos|].
  apply IH. intros country n. unfold count_country.
  destruct (decide (country_of cache (remote_ip conn) = country)) as [->|Hne].
  - rewrite lookup_insert_eq. intros [= <-]. lia.
  - rewrite lookup_insert_ne by exact Hne. apply Hpos.
Qed.

End Countries.

(** C7. For every connection set and cache, [country_counts] gives each
    country the number of connections whose remote address is cached with
    that country, where "Unknown" also receives every connection whose remote
    address has no cache entry; a country is a key exactly when that number
    is positive. *)
Theorem country_counts_by_country (w : wiz) (country : str) :
  let n := (count (cached_in (ip_locations w) country) (connections w)
            + if bool_decide (country = txt "Unknown")
              then count (not_cached (ip_locations w)) (connections w) else 0)%nat in
  default 0%nat (country_counts w !! country) = n
  /\ (is_Some (country_counts w !! country) <-> (0 < n)%nat).
Proof.
  intros n. subst n. unfold country_counts.
  pose proof (foldl_count_country (ip_locations w) (connections w) ∅ country) as H.
  rewrite lookup_empty in H. simpl in H. rewrite count_country_of in H.
  split; [exact H|].
  rewrite <- H. split.
  - intros [k Hk]. rewrite Hk. simpl.
    apply (foldl_count_country_positive (ip_locations w) (connections w) ∅)
      with (country := country); [|exact Hk].
    intros c m Hc. rewrite lookup_empty in Hc. discriminate.
  - destruct (foldl _ _ _ !! country); simpl; [eauto | lia].
Qed.

(** ** The summary block of the tables *)

Lemma add_entry_keys cs : forall ps : gmap Z (list service_entry),
  dom (foldl add_entry ps cs) = dom ps ∪ remote_ports cs.
Proof.
  unfold remote_ports.
  induction cs as [|c cs IH]; intros ps; simpl.
  - now rewrite (right_id_L ∅ (∪)).
  - rewrite IH. unfold add_entry. rewrite dom_insert_L.
    rewrite (comm_L (∪) {[remote_port c]} (dom ps)).
    now rewrite (assoc_L (∪)).
Qed.

(** The three numbers of the summary block. *)
Lemma generate_tables_summary iter_set w report :
  generate_tables iter_set w = Some report ->
  total_connections report = length (connections w)
  /\ unique_ips report = size (ip_locations w)
  /\ unique_ports report = size (port_services w).
Proof.
  unfold generate_tables. destruct (mapM _ _); simpl; [|discriminate].
  intros [= <-]. auto.
Qed.

(** C8. With one external connection whose lookup fails, which is the state
    that [analyze_connections] reaches on such a line, the summary block
    reports one connection and one port, but zero unique addresses, although
    the connection set has one distinct remote address: the number reported
    is the size of the location cache. *)
Theorem generate_tables_unique_ips_undercount :
  (exists report,
     generate_tables elements undercount_state = Some report
     /\ total_connections report = 1%nat
     /\ unique_ports report = 1%nat
     /\ size (remote_ports (connections undercount_state)) = 1%nat
     /\ unique_ips report = 0%nat
     /\ size (remote_ips (connections undercount_state)) = 1%nat)
  /\ forall py,
       analyze_connections py provider_fail elements undercount_lines init
       = Some undercount_state.
Proof.
  split.
  - eexists. split; [vm_compute; reflexivity|].
    repeat split; vm_compute; reflexivity.
  - intros py. vm_compute. reflexivity.
Qed.

(** ** The map *)

Lemma elem_of_items w ip loc :
  (ip, loc) ∈ items w -> ip_locations w !! ip = Some loc.
Proof.
  unfold items. rewrite list_elem_of_omap. intros (k & _ & Hk).
  destruct (ip_locations w !! k) as [l|] eqn:E; [|discriminate].
  simpl in Hk. now injection Hk as <- <-.
Qed.

Lemma add_markers_none env w its :
  (forall ip loc, (ip, loc) ∈ its -> has_coordinates loc = false) ->
  add_markers env w its = inr [].
Proof.
  induction its as [|[ip loc] its IH]; intros H; simpl; [reflexivity|].
  rewrite (H ip loc) by constructor.
  apply IH. intros ip' loc' Hin. apply (H ip' loc'). now constructor.
Qed.

(** Without [folium] nothing is written, and with an empty cache a failing
    save is only reported: in both cases no file is left at the path. *)
Lemma generate_map_may_leave_no_file :
  generate_map env_without_folium no_coordinates_state (txt "network_map.html") ∅
    !! txt "network_map.html" = None
  /\ generate_map env_save_fails init (txt "network_map.html") ∅
       !! txt "network_map.html" = None.
Proof. split; vm_compute; reflexivity. Qed.

(** C9, amended. Without [folium] the files are left as they were.  With
    [folium], a non-empty cache and a fallback write that does not raise, a
    file is left at the requested path: the map that was saved, with the
    markers added and a layer control when there is one, if no call raised
    and the save wrote it; the error page if rendering or saving raised; and
    the "not created" page if the save returned and no file is at the path.
    With [folium] and no entry that has coordinates (an empty cache
    included), when the calls of [folium] succeed, the file is a map without
    markers. *)
Theorem generate_map_leaves_file (env : map_env) (w : wiz) (output_file : str)
    (fs : gmap str file) :
  let path := abspath env output_file in
  let fs' := generate_map env w output_file fs in
  (FOLIUM_AVAILABLE env = false -> fs' = fs)
  /\ (FOLIUM_AVAILABLE env = true -> ip_locations w <> ∅ -> open_raises env = None ->
      is_Some (fs' !! path)
      /\ (forall ms, map_raises env = None ->
            add_markers env w (items w) = inr ms ->
            (ms <> [] -> layer_control_raises env = None) ->
            save env = SaveWrites ->
            fs' !! path
            = Some (FoliumMap ms (match ms with [] => false | _ => true end)))
      /\ (forall e, render_map env w path fs = inl e ->
            fs' !! path = Some (ErrorPage e))
      /\ (forall fs1, render_map env w path fs = inr fs1 -> fs1 !! path = None ->
            fs' !! path = Some (NotCreatedPage (size (ip_locations w)))))
  /\ (FOLIUM_AVAILABLE env = true ->
      (forall ip loc, ip_locations w !! ip = Some loc -> has_coordinates loc = false) ->
      map_raises env = None -> save env = SaveWrites ->
      fs' !! path = Some (FoliumMap [] false)).
Proof.
  intros path fs'. subst path fs'. unfold generate_map. split; [|split].
  - intros ->. reflexivity.
  - intros Hfolium Hne Hopen. rewrite Hfolium. cbn [negb].
    rewrite bool_decide_eq_false_2 by exact Hne.
    unfold write_fallback, write_file. rewrite Hopen.
    destruct (render_map env w (abspath env output_file) fs) as [e|fs1] eqn:Hr.
    + rewrite lookup_insert_eq. split; [eauto|]. split; [|split].
      * intros ms Hmap Hms Hlc Hsave. unfold render_map in Hr.
        rewrite Hmap, Hms, Hsave in Hr.
        destruct ms as [|m ms]; [discriminate Hr|].
        rewrite Hlc in Hr by discriminate. discriminate Hr.
      * now intros e' [= <-].
      * discriminate.
    + assert (Hsaved : forall ms, map_raises env = None ->
                add_markers env w (items w) = inr ms ->
                (ms <> [] -> layer_control_raises env = None) ->
                save env = SaveWrites ->
                fs1 !! abspath env output_file
                = Some (FoliumMap ms (match ms with [] => false | _ => true end))).
      { intros ms Hmap Hms Hlc Hsave. unfold render_map in Hr.
        rewrite Hmap, Hms, Hsave in Hr.
        destruct ms as [|m ms].
        - injection Hr as <-. apply lookup_insert_eq.
        - rewrite Hlc in Hr by discriminate. injection Hr as <-.
          apply lookup_insert_eq. }
      destruct (fs1 !! abspath env output_file) as [f|] eqn:Hf.
      * split; [eauto|]. split; [|split].
        -- intros ms Hmap Hms Hlc Hsave. rewrite Hf.
           exact (Hsaved ms Hmap Hms Hlc Hsave).
        -- discriminate.
        -- intros fs2 [= <-] Hnone. congruence.
      * rewrite lookup_insert_eq. split; [eauto|]. split; [|split].
        -- intros ms Hmap Hms Hlc Hsave.
           specialize (Hsaved ms Hmap Hms Hlc Hsave). discriminate Hsaved.
        -- discriminate.
        -- reflexivity.
  - intros Hfolium Hzero Hmap Hsave. rewrite Hfolium. cbn [negb].
    destruct (bool_decide (ip_locations w = ∅)).
    + rewrite Hmap, Hsave. unfold write_file. apply lookup_insert_eq.
    + unfold render_map. rewrite Hmap, Hsave.
      rewrite add_markers_none.
      * unfold write_file. rewrite lookup_insert_eq. apply lookup_insert_eq.
      * intros ip loc Hin. apply elem_of_items in Hin. eauto.
Qed.

Lemma generate_map_leaves_file_witness :
  generate_map env_without_folium located_state (txt "network_map.html") ∅ = ∅
  /\ generate_map env_working located_state (txt "network_map.html") ∅
       !! txt "network_map.html"
     = Some (FoliumMap [marker_of located_state (txt "93.184.216.34") scenario_location]
                       true)
  /\ generate_map env_save_fails no_coordinates_state (txt "network_map.html") ∅
       !! txt "network_map.html" = Some (ErrorPage (txt "disk full"))
  /\ generate_map env_working no_coordinates_state (txt "network_map.html") ∅
       !! txt "network_map.html" = Some (FoliumMap [] false).
Proof.
  split; [|split; [|split]].
  - exact (proj1 (generate_map_leaves_file env_without_folium located_state
                    (txt "network_map.html") ∅) eq_refl).
  - pose proof (proj1 (proj2 (generate_map_leaves_file env_working located_state
                                (txt "network_map.html") ∅))) as Ha.
    destruct Ha as (_ & Hs & _); [reflexivity | vm_compute; discriminate | reflexivity |].
    apply (Hs [marker_of located_state (txt "93.184.216.34") scenario_location]);
      reflexivity.
  - pose proof (proj1 (proj2 (generate_map_leaves_file env_save_fails
                                no_coordinates_state (txt "network_map.html") ∅)))
      as Ha.
    destruct Ha as (_ & _ & He & _);
      [reflexivity | vm_compute; discriminate | reflexivity |].
    apply He. vm_compute. reflexivity.
  - pose proof (proj2 (proj2 (generate_map_leaves_file env_working
                                no_coordinates_state (txt "network_map.html") ∅)))
      as Hb.
    apply Hb; try reflexivity.
    intros ip loc. unfold no_coordinates_state. simpl.
    intros [<- <-]%lookup_singleton_Some. reflexivity.
Defined.

(** ** Octets above 255 *)

Lemma quad_not_skipped py q :
  quad_runs py q = true -> exceeds_255 (quad_values py q) = true ->
  quad_text q ∉ skipped_literals.
Proof.
  destruct q as [[[a b] c] d]. intros Hq Hex Hin.
  unfold skipped_literals in Hin.
  repeat (apply elem_of_cons in Hin as [Hin | Hin]);
    try (apply (f_equal (Text.split 46)) in Hin;
         rewrite (PatternFacts.split_quad py _ _ _ _ Hq) in Hin;
         vm_compute in Hin; try discriminate Hin;
         injection Hin as -> -> -> ->; vm_compute in Hex; discriminate Hex).
  inversion Hin.
Qed.

Lemma first_octet_above_255 first second :
  255 < first -> private_prefix first second = false.
Proof.
  intros Ha. unfold private_prefix.
  destruct (Z.eqb_spec first 10), (Z.eqb_spec first 127), (Z.eqb_spec first 172),
    (Z.eqb_spec first 192); first [lia | reflexivity].
Qed.

(** What the loop of [parse_netstat_output] does with a line of the
    pattern's shape. *)
Lemma parse_line_shape py sh :
  well_shaped py sh = true ->
  parse_line py (line_text sh)
  = if bool_decide (quad_text (sh_remote sh) ∈ skipped_literals)
       || quad_private py (sh_remote sh)
    then Some None
    else if ports_readable py sh then Some (Some (shape_connection py sh))
         else None.
Proof.
  intros Hsh.
  pose proof (PatternFacts.pattern_match_shape py sh Hsh) as Hm.
  unfold well_shaped in Hsh. rewrite !andb_true_iff in Hsh.
  destruct Hsh as [[[[[[[[[[_ _] _] _] Hlp] _] Hq] Hrp] _] _] _].
  unfold parse_line. rewrite Hm. cbn [g_remote_ip shape_groups].
  destruct (bool_decide (quad_text (sh_remote sh) ∈ skipped_literals));
    [reflexivity|].
  cbn [negb orb].
  destruct (sh_remote sh) as [[[a b] c] d] eqn:Hr.
  rewrite (PatternFacts.is_private_ip_quad py _ _ _ _ Hq).
  destruct (quad_private py (a, b, c, d)); [reflexivity|]. cbn [negb].
  cbn [g_local_port g_remote_port g_protocol g_local_ip g_state shape_groups].
  rewrite (TextFacts.py_int_run py _ Hlp), (TextFacts.py_int_run py _ Hrp).
  unfold Text.checked, ports_readable, readable, shape_connection. cbn [fst snd].
  rewrite Hr.
  destruct (Text.over_limit py (length (sh_local_port sh))); [reflexivity|].
  destruct (Text.over_limit py (length (sh_remote_port sh))); reflexivity.
Qed.

(** An octet above 255 does not by itself keep a record: 10.0.0.999 matches
    the pattern, is classified as private and is dropped; a line whose local
    address has an octet above 255 is dropped when its remote address is
    0.0.0.0; and a port of 4301 digits makes the parser raise, although the
    remote address is 999.1.2.3. *)
Lemma octet_above_255_dropped_as_private :
  line_text shape_10_0_0_999
  = txt "TCP    192.168.1.5:51000    10.0.0.999:443    ESTABLISHED"
  /\ (forall py,
        well_shaped py shape_10_0_0_999 = true
        /\ exceeds_255 (quad_values py (sh_remote shape_10_0_0_999)) = true
        /\ Pattern.pattern_match py (line_text shape_10_0_0_999)
           = Some (shape_groups shape_10_0_0_999)
        /\ is_private_ip py (quad_text (sh_remote shape_10_0_0_999)) = true
        /\ parse_netstat_output py [line_text shape_10_0_0_999] = Some [])
  /\ (forall py,
        well_shaped py shape_local_999 = true
        /\ exceeds_255 (quad_values py (sh_local shape_local_999)) = true
        /\ is_private_ip py (quad_text (sh_remote shape_local_999)) = false
        /\ parse_netstat_output py [line_text shape_local_999] = Some [])
  /\ well_shaped plain shape_long_port = true
  /\ exceeds_255 (quad_values plain (sh_remote shape_long_port)) = true
  /\ is_private_ip plain (quad_text (sh_remote shape_long_port)) = false
  /\ parse_netstat_output plain [line_text shape_long_port] = None.
Proof.
  split; [reflexivity|]. split; [|split].
  - intros py. repeat split; vm_compute; reflexivity.
  - intros py. repeat split; vm_compute; reflexivity.
  - repeat split; vm_compute; reflexivity.
Qed.

(** C10, amended. Octets are never checked against 255: the pattern matches
    every line of its shape, whatever the octets of its two addresses.
    [is_private_ip] is decided by the first two octets of the remote address
    alone: it answers true exactly when [int] reads both and they read 10.x,
    127.x, 172.16-31 or 192.168, which cannot happen when the first octet is
    above 255.  The line gives no record when the remote address is one of
    the four literals, which no address with an octet above 255 is, or is
    classified as private; otherwise its record is kept when [int] reads both
    ports, and the parser raises when it does not. *)
Theorem unchecked_octets_kept (py : interpreter) (sh : line_shape) :
  well_shaped py sh = true ->
  Pattern.pattern_match py (line_text sh) = Some (shape_groups sh)
  /\ is_private_ip py (quad_text (sh_remote sh)) = quad_private py (sh_remote sh)
  /\ parse_netstat_output py [line_text sh]
     = (if bool_decide (quad_text (sh_remote sh) ∈ skipped_literals)
           || quad_private py (sh_remote sh)
        then Some []
        else if ports_readable py sh then Some [shape_connection py sh]
             else None)
  /\ (exceeds_255 (quad_values py (sh_remote sh)) = true ->
      quad_text (sh_remote sh) ∉ skipped_literals)
  /\ (255 < (quad_values py (sh_remote sh)).1.1.1 ->
      quad_private py (sh_remote sh) = false).
Proof.
  intros Hsh.
  pose proof (PatternFacts.pattern_match_shape py sh Hsh) as Hm.
  pose proof (parse_line_shape py sh Hsh) as Hl.
  assert (Hq : quad_runs py (sh_remote sh) = true).
  { unfold well_shaped in Hsh. rewrite !andb_true_iff in Hsh. tauto. }
  split; [exact Hm|]. split; [|split; [|split]].
  - destruct (sh_remote sh) as [[[a b] c] d].
    now apply PatternFacts.is_private_ip_quad.
  - cbn [parse_netstat_output]. rewrite Hl.
    destruct (_ || _); [reflexivity|].
    destruct (ports_readable py sh); reflexivity.
  - now apply quad_not_skipped.
  - destruct (sh_remote sh) as [[[a b] c] d]. cbn. intros Ha.
    unfold quad_private. rewrite (first_octet_above_255 _ _ Ha).
    now rewrite andb_false_r.
Qed.

Lemma unchecked_octets_kept_witness :
  line_text shape_999
  = txt "  TCP    192.168.1.5:51000    999.1.2.3:443    ESTABLISHED"
  /\ well_shaped sample shape_999 = true
  /\ Pattern.pattern_match sample (line_text shape_999) = Some (shape_groups shape_999)
  /\ is_private_ip sample (txt "999.1.2.3") = false
  /\ parse_netstat_output sample [line_text shape_999]
     = Some [Connection (txt "TCP") (txt "192.168.1.5") 51000 (txt "999.1.2.3") 443
                        (txt "ESTABLISHED")].
Proof.
  assert (H : well_shaped sample shape_999 = true) by reflexivity.
  split; [reflexivity|]. split; [exact H|].
  destruct (unchecked_octets_kept sample shape_999 H) as (Hm & Hp & Hl & _).
  split; [exact Hm|]. split; [exact Hp | exact Hl].
Defined.

(** * Further properties *)

(** ** The parser *)

(** X1. The pattern matches a line exactly when the line is made of optional
    white space, TCP or UDP, white space, a dotted quad of digit runs, a
    colon, a digit run, white space, a second quad, colon and digit run,
    white space and a run of word characters taken as long as possible,
    where white space, digits and word characters are those of Unicode; the
    groups are those pieces. *)
Theorem pattern_accepts_exactly_shaped_lines (py : interpreter) (line : str)
    (g : groups) :
  Pattern.pattern_match py line = Some g <->
  exists sh, well_shaped py sh = true /\ line = line_text sh /\ g = shape_groups sh.
Proof. apply PatternFacts.pattern_match_spec. Qed.

Section Parser.

Variable py : interpreter.

Lemma parse_netstat_output_app l1 l2 :
  parse_netstat_output py (l1 ++ l2)
  = (a ← parse_netstat_output py l1; b ← parse_netstat_output py l2; Some (a ++ b)).
Proof.
  induction l1 as [|l l1 IH]; cbn [app parse_netstat_output].
  - cbn [mbind option_bind]. now destruct (parse_netstat_output py l2).
  - destruct (parse_line py l) as [r|]; [|reflexivity]. cbn [mbind option_bind].
    rewrite IH.
    destruct (parse_netstat_output py l1) as [a|]; [|reflexivity].
    cbn [mbind option_bind].
    destruct (parse_netstat_output py l2) as [b|]; [|reflexivity].
    cbn [mbind option_bind]. now destruct r.
Qed.

Lemma parse_netstat_output_length lines : forall conns,
  parse_netstat_output py lines = Some conns ->
  (length conns <= length lines)%nat.
Proof.
  induction lines as [|l ls IH]; intros conns; cbn [parse_netstat_output].
  - intros [= <-]. reflexivity.
  - destruct (parse_line py l) as [r|]; [|discriminate]. cbn [mbind option_bind].
    destruct (parse_netstat_output py ls) as [cs|]; [|discriminate].
    cbn [mbind option_bind]. intros [= <-]. specialize (IH cs eq_refl).
    destruct r; simpl; lia.
Qed.

Lemma parse_line_no_match line :
  Pattern.pattern_match py line = None -> parse_line py line = Some None.
Proof. intros H. unfold parse_line. now rewrite H. Qed.

(** [int] reads a port that the pattern captured from a line of at most 640
    characters, and every port when there is no ceiling. *)
Lemma parse_line_returns line :
  (length line <= 640)%nat \/ max_str_digits py = 0%nat ->
  is_Some (parse_line py line).
Proof.
  intros Hshort.
  destruct (Pattern.pattern_match py line) as [g|] eqn:Hm;
    [|rewrite (parse_line_no_match _ Hm); eauto].
  apply PatternFacts.pattern_match_spec in Hm as (sh & Hsh & -> & ->).
  rewrite (parse_line_shape py sh Hsh).
  destruct (_ || _); [eauto|].
  assert (Hr : ports_readable py sh = true); [|rewrite Hr; eauto].
  unfold ports_readable, readable.
  destruct Hshort as [Hlen | Hmax].
  - unfold line_text in Hlen. rewrite !length_app in Hlen.
    rewrite !TextFacts.short_run_readable by lia. reflexivity.
  - unfold Text.over_limit. rewrite Hmax. cbn. now rewrite !andb_false_r.
Qed.

End Parser.

(** X2. Parsing works line by line: the records of two lists of lines put
    together are the records of the first followed by those of the second
    (and parsing them raises when parsing one of the two does), there are
    never more records than lines, and a line that the pattern does not match
    adds nothing. *)
Theorem parse_netstat_output_line_by_line (py : interpreter) (l1 l2 : list str)
    (line : str) :
  parse_netstat_output py (l1 ++ l2)
  = (a ← parse_netstat_output py l1; b ← parse_netstat_output py l2; Some (a ++ b))
  /\ (forall conns, parse_netstat_output py l1 = Some conns ->
        (length conns <= length l1)%nat)
  /\ (Pattern.pattern_match py line = None ->
      parse_netstat_output py (l1 ++ line :: l2) = parse_netstat_output py (l1 ++ l2)).
Proof.
  split; [apply parse_netstat_output_app|].
  split; [apply parse_netstat_output_length|].
  intros Hno. rewrite !parse_netstat_output_app. cbn [parse_netstat_output].
  rewrite (parse_line_no_match py line Hno). cbn [mbind option_bind].
  destruct (parse_netstat_output py l1) as [a|]; [|reflexivity].
  cbn [mbind option_bind].
  destruct (parse_netstat_output py l2) as [b|]; reflexivity.
Qed.

Lemma parse_netstat_output_line_by_line_witness :
  Pattern.pattern_match sample (txt "garbage line") = None
  /\ parse_netstat_output sample (scenario_lines ++ txt "garbage line" :: scenario_lines)
     = parse_netstat_output sample (scenario_lines ++ scenario_lines).
Proof.
  assert (H : Pattern.pattern_match sample (txt "garbage line") = None)
    by reflexivity.
  split; [exact H|].
  exact (proj2 (proj2 (parse_netstat_output_line_by_line
                         sample scenario_lines scenario_lines (txt "garbage line"))) H).
Defined.

(** X3. Every record that [parse_netstat_output] returns comes from a line
    that the pattern matched: its protocol is TCP or UDP, its addresses are
    dotted quads of digit runs, its state is a non-empty run of word
    characters, and its two ports are what [int] returned on the captured
    digits, which are the non-negative numbers that those digits write. *)
Theorem parsed_records_well_formed (py : interpreter) (lines : list str)
    (conns : list connection) (conn : connection) :
  parse_netstat_output py lines = Some conns ->
  conn ∈ conns ->
  exists line g,
    line ∈ lines
    /\ Pattern.pattern_match py line = Some g
    /\ protocol conn = g_protocol g
    /\ (protocol conn = txt "TCP" \/ protocol conn = txt "UDP")
    /\ (exists q, local_ip conn = quad_text q /\ quad_runs py q = true)
    /\ (exists q, remote_ip conn = quad_text q /\ quad_runs py q = true)
    /\ Text.py_int py (g_local_port g) = Some (local_port conn)
    /\ Text.py_int py (g_remote_port g) = Some (remote_port conn)
    /\ local_port conn = Text.run_value py (g_local_port g)
    /\ remote_port conn = Text.run_value py (g_remote_port g)
    /\ 0 <= local_port conn /\ 0 <= remote_port conn
    /\ Text.run_of (Text.is_word py) (state conn) = true.
Proof.
  intros Hp Hin.
  apply (parse_netstat_output_elem py _ _ _ Hp) in Hin as (line & Hin & Hl).
  apply parse_line_record in Hl
    as (g & Hm & _ & _ & Hlp & Hrp & -> & -> & -> & ->).
  exists line, g.
  pose proof (PatternFacts.pattern_match_sound py _ _ Hm)
    as (Hproto & Hlq & Hlr & Hrq & Hrr & Hst).
  rewrite (TextFacts.py_int_run py _ Hlr) in Hlp.
  rewrite (TextFacts.py_int_run py _ Hrr) in Hrp.
  assert (Hlv : local_port conn = Text.run_value py (g_local_port g)).
  { unfold Text.checked in Hlp. cbn [fst snd] in Hlp.
    destruct (Text.over_limit py _); [discriminate|]. congruence. }
  assert (Hrv : remote_port conn = Text.run_value py (g_remote_port g)).
  { unfold Text.checked in Hrp. cbn [fst snd] in Hrp.
    destruct (Text.over_limit py _); [discriminate|]. congruence. }
  split; [exact Hin|]. split; [exact Hm|]. split; [reflexivity|].
  split.
  { apply orb_true_iff in Hproto as [H | H]; apply bool_decide_eq_true in H; auto. }
  split; [exact Hlq|]. split; [exact Hrq|].
  split; [now rewrite (TextFacts.py_int_run py _ Hlr)|].
  split; [now rewrite (TextFacts.py_int_run py _ Hrr)|].
  split; [exact Hlv|]. split; [exact Hrv|].
  rewrite Hlv, Hrv.
  split; [apply TextFacts.run_value_nonneg|].
  split; [apply TextFacts.run_value_nonneg | exact Hst].
Qed.

Lemma parsed_records_well_formed_witness :
  parse_netstat_output sample scenario_lines = Some [scenario_connection]
  /\ exists line g,
    line ∈ scenario_lines
    /\ Pattern.pattern_match sample line = Some g
    /\ protocol scenario_connection = g_protocol g
    /\ (protocol scenario_connection = txt "TCP"
        \/ protocol scenario_connection = txt "UDP")
    /\ (exists q, local_ip scenario_connection = quad_text q
                  /\ quad_runs sample q = true)
    /\ (exists q, remote_ip scenario_connection = quad_text q
                  /\ quad_runs sample q = true)
    /\ Text.py_int sample (g_local_port g) = Some (local_port scenario_connection)
    /\ Text.py_int sample (g_remote_port g) = Some (remote_port scenario_connection)
    /\ local_port scenario_connection = Text.run_value sample (g_local_port g)
    /\ remote_port scenario_connection = Text.run_value sample (g_remote_port g)
    /\ 0 <= local_port scenario_connection /\ 0 <= remote_port scenario_connection
    /\ Text.run_of (Text.is_word sample) (state scenario_connection) = true.
Proof.
  assert (E : parse_netstat_output sample scenario_lines = Some [scenario_connection])
    by (vm_compute; reflexivity).
  split; [exact E|].
  apply (parsed_records_well_formed sample scenario_lines [scenario_connection]
           scenario_connection E).
  constructor.
Defined.

(** X4. On a dotted quad of digit runs [is_private_ip] reads the first two
    octets only: it answers true exactly when [int] reads both, each being
    within the ceiling on digits, and their values pass the tests against
    10, 127, 172.16-31 and 192.168; so two addresses that share their first
    two octets get the same answer, whatever the other two are. *)
Theorem is_private_ip_reads_two_octets (py : interpreter) (a b c d c' d' : str) :
  quad_runs py (a, b, c, d) = true ->
  quad_runs py (a, b, c', d') = true ->
  is_private_ip py (quad_text (a, b, c, d))
  = readable py a && readable py b
    && private_prefix (Text.run_value py a) (Text.run_value py b)
  /\ is_private_ip py (quad_text (a, b, c, d))
     = is_private_ip py (quad_text (a, b, c', d')).
Proof.
  intros H1 H2.
  rewrite (PatternFacts.is_private_ip_quad py _ _ _ _ H1),
    (PatternFacts.is_private_ip_quad py _ _ _ _ H2).
  split; reflexivity.
Qed.

Lemma is_private_ip_reads_two_octets_witness :
  is_private_ip sample (txt "172.16.300.4")
  = readable sample (txt "172") && readable sample (txt "16")
    && private_prefix (Text.run_value sample (txt "172"))
                      (Text.run_value sample (txt "16"))
  /\ is_private_ip sample (txt "172.16.300.4")
     = is_private_ip sample (txt "172.16.0.77777").
Proof.
  apply (is_private_ip_reads_two_octets sample (txt "172") (txt "16") (txt "300")
           (txt "4") (txt "0") (txt "77777"));
    reflexivity.
Defined.

(** X20. [parse_netstat_output] raises only beyond the ceiling on digits: it
    returns when every line has at most 640 characters, and on all lines when
    the interpreter has no ceiling; and [analyze_connections] returns exactly
    when [parse_netstat_output] does. *)
Theorem parse_netstat_output_returns (py : interpreter) (lines : list str) :
  (Forall (fun line => (length line <= 640)%nat) lines \/ max_str_digits py = 0%nat ->
   is_Some (parse_netstat_output py lines))
  /\ (forall provider iter_set w,
        is_Some (analyze_connections py provider iter_set lines w)
        <-> is_Some (parse_netstat_output py lines)).
Proof.
  split.
  - intros H. induction lines as [|l ls IH]; cbn [parse_netstat_output]; [eauto|].
    assert (Hl : is_Some (parse_line py l)).
    { apply parse_line_returns. destruct H as [H | H]; [|now right].
      left. now inversion H. }
    assert (Hls : is_Some (parse_netstat_output py ls)).
    { apply IH. destruct H as [H | H]; [|now right]. left. now inversion H. }
    destruct Hl as [r ->], Hls as [cs ->]. cbn [mbind option_bind]. eauto.
  - intros provider iter_set w. rewrite analyze_connections_unfold.
    apply fmap_is_Some.
Qed.

Lemma parse_netstat_output_returns_witness :
  Forall (fun line => (length line <= 640)%nat) scenario_lines
  /\ is_Some (parse_netstat_output sample scenario_lines).
Proof.
  assert (H : Forall (fun line => (length line <= 640)%nat) scenario_lines)
    by (repeat constructor; vm_compute; lia).
  split; [exact H|].
  exact (proj1 (parse_netstat_output_returns sample scenario_lines) (or_introl H)).
Defined.

(** ** The resolver and the lookup loop *)

Lemma omap_ext_elem {A B : Type} (f g : A -> option B) (l : list A) :
  (forall x, x ∈ l -> f x = g x) -> omap f l = omap g l.
Proof.
  induction l as [|a l IH]; intros H; cbn; [reflexivity|].
  rewrite (H a) by constructor.
  rewrite IH; [reflexivity|]. intros x Hx. apply H. now constructor.
Qed.

Lemma omap_singleton {A B : Type} (f : A -> option B) (x : A) :
  omap f [x] = match f x with Some y => [y] | None => [] end.
Proof. reflexivity. Qed.

Section Lookups.

Variable provider : nat -> str -> response.

(** What a call returns, in terms of the cache and of the provider. *)
Lemma get_ip_location_result ip w loc :
  fst (get_ip_location provider ip w) = Some loc <->
  ip_locations w !! ip = Some loc
  \/ (ip_locations w !! ip = None
      /\ exists data,
           provider (network_calls (trace w)) (api_url ip) = JSONObject data
           /\ d_status data = Some (txt "success")
           /\ loc = location_of ip data).
Proof.
  unfold get_ip_location.
  destruct (ip_locations w !! ip) as [loc0|] eqn:Hc; simpl.
  - split; [intros [= <-]; auto | intros [[= <-] | [[=] _]]; reflexivity].
  - rewrite network_calls_snoc. simpl. rewrite Nat.add_0_r.
    destruct (provider _ _) as [code| | | |data]; simpl;
      try (split; [discriminate | intros [[=] | (_ & ? & [=] & _)]]).
    destruct (bool_decide (d_status data = Some (txt "success"))) eqn:Hs; simpl.
    + apply bool_decide_eq_true in Hs. split.
      * intros [= <-]. right. eauto.
      * intros [[=] | (_ & data' & [= <-] & _ & ->)]. reflexivity.
    + apply bool_decide_eq_false in Hs. split; [discriminate|].
      intros [[=] | (_ & data' & [= <-] & Hok & _)]. contradiction.
Qed.

(** The cache after a call on an address that was not cached. *)
Lemma get_ip_location_miss_cache ip w :
  ip_locations w !! ip = None ->
  ip_locations (snd (get_ip_location provider ip w))
  = match fst (get_ip_location provider ip w) with
    | Some loc => <[ip := loc]> (ip_locations w)
    | None => ip_locations w
    end.
Proof.
  intros Hc. pose proof (get_ip_location_miss provider ip w Hc) as Hm.
  destruct (get_ip_location provider ip w) as [r w']. simpl.
  destruct Hm as (_ & _ & _ & Hm). destruct r; apply Hm.
Qed.

(** The order of the keys after a call on an address that was not
    cached. *)
Lemma get_ip_location_miss_order ip w :
  ip_locations w !! ip = None ->
  ip_order (snd (get_ip_location provider ip w))
  = match fst (get_ip_location provider ip w) with
    | Some loc => if bool_decide (ip ∈ ip_order w) then ip_order w
                  else (ip_order w ++ [ip])%list
    | None => ip_order w
    end.
Proof.
  intros Hc. pose proof (get_ip_location_miss provider ip w Hc) as Hm.
  destruct (get_ip_location provider ip w) as [r w']. simpl.
  destruct Hm as (_ & _ & _ & Hm). destruct r; apply Hm.
Qed.

Lemma get_ip_location_keeps ip w k loc :
  ip_locations w !! k = Some loc ->
  ip_locations (snd (get_ip_location provider ip w)) !! k = Some loc.
Proof.
  intros Hk. destruct (ip_locations w !! ip) as [l|] eqn:Hc.
  - now rewrite (get_ip_location_hit _ _ _ _ Hc).
  - rewrite (get_ip_location_miss_cache _ _ Hc).
    destruct (fst _); [|exact Hk].
    rewrite lookup_insert_ne; [exact Hk | congruence].
Qed.

Lemma get_ip_location_adds ip w k loc :
  ip_locations (snd (get_ip_location provider ip w)) !! k = Some loc ->
  ip_locations w !! k = Some loc \/ (k = ip /\ loc_ip loc = k).
Proof.
  destruct (ip_locations w !! ip) as [l|] eqn:Hc.
  - rewrite (get_ip_location_hit _ _ _ _ Hc). auto.
  - rewrite (get_ip_location_miss_cache _ _ Hc).
    destruct (fst _) as [l|] eqn:Hr; [|auto].
    apply get_ip_location_result in Hr as [Hr | (_ & data & _ & _ & ->)];
      [congruence|].
    destruct (decide (ip = k)) as [<-|Hne].
    + rewrite lookup_insert_eq. intros [= <-]. auto.
    + rewrite lookup_insert_ne by exact Hne. auto.
Qed.

(** The order of the keys stays that of the dictionary. *)
Lemma get_ip_location_dict_ok ip w :
  dict_ok w -> dict_ok (snd (get_ip_location provider ip w)).
Proof.
  intros [Hnd Hkeys]. destruct (ip_locations w !! ip) as [l|] eqn:Hc.
  - rewrite (get_ip_location_hit _ _ _ _ Hc). now split.
  - unfold dict_ok.
    rewrite (get_ip_location_miss_cache _ _ Hc), (get_ip_location_miss_order _ _ Hc).
    destruct (fst _) as [loc|]; [|now split].
    assert (Hout : ip ∉ ip_order w).
    { intros Hin. apply Hkeys in Hin as [? Hin]. congruence. }
    rewrite bool_decide_eq_false_2 by exact Hout. split.
    + apply NoDup_app. split; [exact Hnd|]. split; [|apply NoDup_singleton].
      intros x Hx ->%list_elem_of_singleton. contradiction.
    + intros k. rewrite elem_of_app, list_elem_of_singleton, Hkeys.
      destruct (decide (ip = k)) as [<-|Hne].
      * rewrite lookup_insert_eq. split; eauto.
      * rewrite lookup_insert_ne by exact Hne. split; [|tauto].
        intros [H | ->]; [exact H | contradiction].
Qed.

Lemma resolve_all_keeps ips : forall w k loc,
  ip_locations w !! k = Some loc ->
  ip_locations (resolve_all provider w ips) !! k = Some loc.
Proof.
  induction ips as [|ip ips IH]; intros w k loc Hk; simpl; [exact Hk|].
  apply IH. now apply get_ip_location_keeps.
Qed.

Lemma resolve_all_adds ips : forall w k loc,
  ip_locations (resolve_all provider w ips) !! k = Some loc ->
  ip_locations w !! k = Some loc \/ (k ∈ ips /\ loc_ip loc = k).
Proof.
  induction ips as [|ip ips IH]; intros w k loc Hk; simpl in Hk; [auto|].
  apply IH in Hk as [Hk | [Hin Hl]].
  - apply get_ip_location_adds in Hk as [Hk | [-> Hl]]; [auto|].
    right. split; [constructor | exact Hl].
  - right. split; [now constructor | exact Hl].
Qed.

Lemma resolve_all_dict_ok ips : forall w,
  dict_ok w -> dict_ok (resolve_all provider w ips).
Proof.
  induction ips as [|ip ips IH]; intros w Hw; simpl; [exact Hw|].
  apply IH. now apply get_ip_location_dict_ok.
Qed.

Lemma resolve_all_trace ips : forall w,
  exists missed,
    sublist missed ips
    /\ trace (resolve_all provider w ips)
       = (trace w ++ flat_map request_pair missed)%list.
Proof.
  induction ips as [|ip ips IH]; intros w; simpl.
  - exists []. split; [constructor | now rewrite app_nil_r].
  - destruct (IH (snd (get_ip_location provider ip w))) as (missed & Hsub & Ht).
    destruct (ip_locations w !! ip) as [l|] eqn:Hc.
    + rewrite (get_ip_location_hit _ _ _ _ Hc) in *. simpl in *.
      exists missed. split; [now constructor | exact Ht].
    + pose proof (get_ip_location_miss provider ip w Hc) as Hm.
      destruct (get_ip_location provider ip w) as [r w']. simpl in *.
      destruct Hm as (Hm & _).
      exists (ip :: missed). split; [now constructor|].
      rewrite Ht, Hm. simpl. now rewrite <- app_assoc.
Qed.

Lemma resolve_all_trace_fresh ips : forall w,
  NoDup ips ->
  (forall ip, ip ∈ ips -> ip_locations w !! ip = None) ->
  trace (resolve_all provider w ips) = (trace w ++ flat_map request_pair ips)%list.
Proof.
  induction ips as [|ip ips IH]; intros w Hnd Hfresh; simpl.
  - now rewrite app_nil_r.
  - apply NoDup_cons in Hnd as [Hnotin Hnd].
    assert (Hc : ip_locations w !! ip = None) by (apply Hfresh; constructor).
    rewrite IH; [|exact Hnd|].
    + pose proof (get_ip_location_miss provider ip w Hc) as Hm.
      destruct (get_ip_location provider ip w) as [r w']. simpl.
      destruct Hm as (-> & _). now rewrite <- app_assoc.
    + intros ip' Hin. rewrite (get_ip_location_miss_cache _ _ Hc).
      assert (Hc' : ip_locations w !! ip' = None)
        by (apply Hfresh; now constructor).
      destruct (fst _); [|exact Hc'].
      rewrite lookup_insert_ne; [exact Hc' | intros ->; contradiction].
Qed.

Lemma resolve_all_succeeds ips : forall w k,
  always_succeeds provider -> k ∈ ips ->
  is_Some (ip_locations (resolve_all provider w ips) !! k).
Proof.
  induction ips as [|ip ips IH]; intros w k Hok Hin; [inversion Hin|].
  simpl. apply elem_of_cons in Hin as [-> | Hin]; [|now apply IH].
  assert (Hnow : is_Some (ip_locations (snd (get_ip_location provider ip w)) !! ip)).
  { destruct (ip_locations w !! ip) as [l|] eqn:Hc.
    - rewrite (get_ip_location_hit _ _ _ _ Hc). simpl. eauto.
    - rewrite (get_ip_location_miss_cache _ _ Hc).
      destruct (Hok (network_calls (trace w)) (api_url ip)) as (data & Ha & Hs).
      assert (Hr : fst (get_ip_location provider ip w) = Some (location_of ip data)).
      { apply get_ip_location_result. right. eauto. }
      rewrite Hr, lookup_insert_eq. eauto. }
  destruct Hnow as [l Hl]. exists l. now apply resolve_all_keeps.
Qed.

Lemma request_pairs_count ips :
  network_calls (flat_map request_pair ips) = length ips
  /\ delays (flat_map request_pair ips) = length ips.
Proof.
  induction ips as [|ip ips [IHn IHd]]; [split; reflexivity|].
  change (flat_map request_pair (ip :: ips))
    with (request_pair ip ++ flat_map request_pair ips)%list.
  unfold network_calls, delays in *.
  rewrite !filter_app, !length_app, IHn, IHd. split; reflexivity.
Qed.

End Lookups.

Section Run.

Variable py : interpreter.
Variable provider : nat -> str -> response.
Variable iter_set : gset str -> list str.

(** When the parser returns, so does the analysis, and its connection set is
    the parser's output. *)
Lemma analyze_connections_parsed lines cs w :
  parse_netstat_output py lines = Some cs ->
  analyze_connections py provider iter_set lines w
  = Some (analysed provider iter_set cs w).
Proof. intros H. now rewrite analyze_connections_unfold, H. Qed.

(** X5. An entry of the cache never changes: whatever address is resolved
    next, and whatever lines [analyze_connections] is run on, an address
    that was cached keeps its location. *)
Theorem cache_entries_never_change (lines : list str) (w : wiz)
    (ip k : str) (loc : location) :
  ip_locations w !! k = Some loc ->
  ip_locations (snd (get_ip_location provider ip w)) !! k = Some loc
  /\ forall w',
       analyze_connections py provider iter_set lines w = Some w' ->
       ip_locations w' !! k = Some loc.
Proof.
  intros Hk. split; [now apply get_ip_location_keeps|].
  intros w' (cs & _ & ->)%analyze_connections_Some.
  rewrite (proj1 (analysed_lookups provider iter_set cs w)).
  now apply resolve_all_keeps.
Qed.

(** X6. [get_ip_location] returns a location exactly in two cases: the
    address is cached, and the cached location is returned; or it is not,
    the provider's answer is a JSON object whose status is "success", and
    the location is built from that answer. *)
Theorem get_ip_location_returns (ip : str) (w : wiz) (loc : location) :
  fst (get_ip_location provider ip w) = Some loc <->
  ip_locations w !! ip = Some loc
  \/ (ip_locations w !! ip = None
      /\ exists data,
           provider (network_calls (trace w)) (api_url ip) = JSONObject data
           /\ d_status data = Some (txt "success")
           /\ loc = location_of ip data).
Proof. apply get_ip_location_result. Qed.

(** X7. Every request is made right after a delay of 1.5 seconds: whatever
    the lines and the starting state, when the parser returns the history
    grows by a delay and a request for each address of some sub-sequence of
    the addresses iterated, and by nothing else, so it grows by as many
    delays as requests. *)
Theorem every_request_follows_a_delay (lines : list str) (cs : list connection)
    (w : wiz) :
  parse_netstat_output py lines = Some cs ->
  exists w' missed,
    analyze_connections py provider iter_set lines w = Some w'
    /\ sublist missed (lookup_order iter_set cs)
    /\ trace w' = (trace w ++ flat_map request_pair missed)%list
    /\ network_calls (trace w') = (network_calls (trace w) + length missed)%nat
    /\ delays (trace w') = (delays (trace w) + length missed)%nat.
Proof.
  intros Hp. exists (analysed provider iter_set cs w).
  destruct (resolve_all_trace provider (lookup_order iter_set cs)
              (set_connections cs w)) as (missed & Hsub & Ht).
  exists missed. split; [now apply analyze_connections_parsed|].
  split; [exact Hsub|].
  rewrite (proj2 (proj2 (analysed_lookups provider iter_set cs w))), Ht. simpl.
  split; [reflexivity|].
  unfold network_calls, delays. rewrite !filter_app, !length_app.
  destruct (request_pairs_count missed) as [Hn Hd].
  unfold network_calls, delays in Hn, Hd. rewrite Hn, Hd. auto.
Qed.

(** X8. One lookup per unique address: when the addresses iterated are
    distinct and none of them is cached, the history grows by exactly one
    delay and one request for each of them, in iteration order, whether the
    lookups succeed or fail. *)
Theorem one_lookup_per_unique_address (lines : list str) (cs : list connection)
    (w : wiz) :
  parse_netstat_output py lines = Some cs ->
  NoDup (lookup_order iter_set cs) ->
  (forall ip, ip ∈ lookup_order iter_set cs -> ip_locations w !! ip = None) ->
  exists w',
    analyze_connections py provider iter_set lines w = Some w'
    /\ trace w' = (trace w ++ flat_map request_pair (lookup_order iter_set cs))%list
    /\ network_calls (trace w')
       = (network_calls (trace w) + length (lookup_order iter_set cs))%nat.
Proof.
  intros Hp Hnd Hfresh. exists (analysed provider iter_set cs w).
  split; [now apply analyze_connections_parsed|].
  rewrite (proj2 (proj2 (analysed_lookups provider iter_set cs w))).
  rewrite resolve_all_trace_fresh by assumption. simpl.
  split; [reflexivity|].
  destruct (request_pairs_count (lookup_order iter_set cs)) as [Hn _].
  unfold network_calls in *. now rewrite filter_app, length_app, Hn.
Qed.

Lemma analysed_cache_members cs k loc :
  (forall X ip, ip ∈ iter_set X -> ip ∈ X) ->
  ip_locations (analysed provider iter_set cs init) !! k = Some loc ->
  k ∈ remote_ips cs /\ loc_ip loc = k.
Proof.
  intros Hiter Hk.
  rewrite (proj1 (analysed_lookups provider iter_set cs init)) in Hk.
  apply resolve_all_adds in Hk as [Hk | [Hk Hl]].
  - simpl in Hk. rewrite lookup_empty in Hk. discriminate.
  - split; [|exact Hl]. unfold lookup_order in Hk.
    destruct cs as [|c cs]; [inversion Hk|].
    now apply Hiter.
Qed.

(** X9. The cache holds nothing but looked-up addresses: when the iteration
    of a set yields only its members, after [analyze_connections] on a fresh
    object every cached address is the remote address of a connection, its
    location carries that address, and the cache is no larger than the set
    of distinct remote addresses. *)
Theorem cache_within_connection_set (lines : list str) (cs : list connection) :
  (forall X ip, ip ∈ iter_set X -> ip ∈ X) ->
  parse_netstat_output py lines = Some cs ->
  exists w,
    analyze_connections py provider iter_set lines init = Some w
    /\ connections w = cs
    /\ (forall k loc, ip_locations w !! k = Some loc ->
                      k ∈ remote_ips (connections w) /\ loc_ip loc = k)
    /\ (size (ip_locations w) <= size (remote_ips (connections w)))%nat.
Proof.
  intros Hiter Hp. exists (analysed provider iter_set cs init).
  split; [now apply analyze_connections_parsed|].
  rewrite analysed_connections. split; [reflexivity|]. split.
  - intros k loc. now apply analysed_cache_members.
  - rewrite <- size_dom. apply subseteq_size.
    intros k [loc Hk]%elem_of_dom. now apply (analysed_cache_members cs k loc).
Qed.

(** X10. When every lookup succeeds and the iteration of a set yields
    exactly its members, after [analyze_connections] on a fresh object the
    cache has one entry per distinct remote address, so the number that
    [generate_tables] reports as unique addresses is their number. *)
Theorem unique_ips_right_when_lookups_succeed (lines : list str)
    (cs : list connection) :
  always_succeeds provider ->
  (forall X ip, ip ∈ iter_set X <-> ip ∈ X) ->
  parse_netstat_output py lines = Some cs ->
  exists w,
    analyze_connections py provider iter_set lines init = Some w
    /\ connections w = cs
    /\ dom (ip_locations w) = remote_ips (connections w)
    /\ forall order report,
         generate_tables order w = Some report ->
         unique_ips report = size (remote_ips (connections w)).
Proof.
  intros Hok Hiter Hp. exists (analysed provider iter_set cs init).
  split; [now apply analyze_connections_parsed|].
  rewrite analysed_connections. split; [reflexivity|].
  assert (Hdom : dom (ip_locations (analysed provider iter_set cs init))
                 = remote_ips cs).
  { apply set_eq. intros k. split.
    - intros [loc Hk]%elem_of_dom.
      apply (analysed_cache_members cs k loc); [|exact Hk].
      intros X ip. apply Hiter.
    - intros Hk. apply elem_of_dom.
      rewrite (proj1 (analysed_lookups provider iter_set cs init)).
      apply resolve_all_succeeds; [exact Hok|].
      unfold lookup_order.
      destruct cs as [|c cs].
      + unfold remote_ips in Hk. simpl in Hk. now apply not_elem_of_empty in Hk.
      + now apply Hiter. }
  split; [exact Hdom|].
  intros order report Hr.
  apply generate_tables_summary in Hr as (_ & -> & _).
  now rewrite <- size_dom, Hdom.
Qed.

(** X21. [ip_order] stays the order of the keys of [ip_locations]: a state in
    which it lists each key once, as the fresh object does, is followed by
    such states under [get_ip_location] and [analyze_connections], and an
    address resolved for the first time goes last. *)
Theorem ip_order_is_insertion_order (lines : list str) (w : wiz) (ip : str) :
  dict_ok w ->
  dict_ok (snd (get_ip_location provider ip w))
  /\ (forall w', analyze_connections py provider iter_set lines w = Some w' ->
                 dict_ok w')
  /\ (forall loc,
        ip_locations w !! ip = None ->
        fst (get_ip_location provider ip w) = Some loc ->
        items (snd (get_ip_location provider ip w)) = (items w ++ [(ip, loc)])%list).
Proof.
  intros Hw. split; [now apply get_ip_location_dict_ok|]. split.
  - intros w' (cs & _ & ->)%analyze_connections_Some.
    destruct (analysed_lookups provider iter_set cs w) as (Hc & Ho & _).
    unfold dict_ok. rewrite Hc, Ho.
    apply (resolve_all_dict_ok provider). exact Hw.
  - intros loc Hc Hr. unfold items.
    rewrite (get_ip_location_miss_cache _ _ _ Hc),
      (get_ip_location_miss_order _ _ _ Hc), Hr.
    destruct Hw as [_ Hkeys].
    assert (Hout : ip ∉ ip_order w).
    { intros Hin. apply Hkeys in Hin as [? Hin]. congruence. }
    rewrite bool_decide_eq_false_2 by exact Hout.
    rewrite omap_app, omap_singleton, lookup_insert_eq. cbn [fmap option_fmap option_map].
    f_equal. apply omap_ext_elem. intros k Hk.
    rewrite lookup_insert_ne; [reflexivity | intros <-; contradiction].
Qed.

End Run.

Lemma scenario_parsed py :
  parse_netstat_output py scenario_lines = Some [scenario_connection].
Proof. vm_compute. reflexivity. Qed.

Lemma scenario_lookup_order :
  lookup_order elements [scenario_connection] = [txt "93.184.216.34"].
Proof. vm_compute. reflexivity. Qed.

Lemma provider_success_always_succeeds : always_succeeds provider_success.
Proof. intros n url. eexists. split; reflexivity. Qed.

Lemma provider_fail_never_succeeds : never_succeeds provider_fail.
Proof. intros n url. simpl. discriminate. Qed.

Lemma dict_ok_init : dict_ok init.
Proof.
  split; [constructor|]. intros ip. cbn. rewrite lookup_empty. split.
  - intros H. inversion H.
  - intros [? H]. discriminate H.
Qed.

Lemma cache_entries_never_change_witness :
  ip_locations (snd (get_ip_location provider_fail (txt "203.0.113.9")
                       scenario_resolved))
    !! txt "93.184.216.34" = Some scenario_location
  /\ forall w',
       analyze_connections sample provider_fail elements scenario_lines
         scenario_resolved = Some w' ->
       ip_locations w' !! txt "93.184.216.34" = Some scenario_location.
Proof.
  apply (cache_entries_never_change sample provider_fail elements scenario_lines
           scenario_resolved (txt "203.0.113.9") (txt "93.184.216.34")
           scenario_location).
  vm_compute. reflexivity.
Defined.

Lemma every_request_follows_a_delay_witness :
  parse_netstat_output sample scenario_lines = Some [scenario_connection]
  /\ exists w' missed,
       analyze_connections sample provider_fail elements scenario_lines init = Some w'
       /\ sublist missed (lookup_order elements [scenario_connection])
       /\ trace w' = (trace init ++ flat_map request_pair missed)%list
       /\ network_calls (trace w') = (network_calls (trace init) + length missed)%nat
       /\ delays (trace w') = (delays (trace init) + length missed)%nat.
Proof.
  split; [apply scenario_parsed|].
  exact (every_request_follows_a_delay sample provider_fail elements scenario_lines
           [scenario_connection] init (scenario_parsed sample)).
Defined.

Lemma one_lookup_per_unique_address_witness :
  exists w',
    analyze_connections sample provider_fail elements scenario_lines init = Some w'
    /\ trace w'
       = (trace init
          ++ flat_map request_pair (lookup_order elements [scenario_connection]))%list
    /\ network_calls (trace w')
       = (network_calls (trace init)
          + length (lookup_order elements [scenario_connection]))%nat.
Proof.
  apply (one_lookup_per_unique_address sample provider_fail elements scenario_lines
           [scenario_connection] init (scenario_parsed sample)).
  - rewrite scenario_lookup_order. apply NoDup_singleton.
  - intros ip _. apply lookup_empty.
Defined.

Lemma cache_within_connection_set_witness :
  exists w,
    analyze_connections sample provider_success elements scenario_lines init = Some w
    /\ connections w = [scenario_connection]
    /\ (forall k loc, ip_locations w !! k = Some loc ->
                      k ∈ remote_ips (connections w) /\ loc_ip loc = k)
    /\ (size (ip_locations w) <= size (remote_ips (connections w)))%nat.
Proof.
  apply (cache_within_connection_set sample provider_success elements scenario_lines
           [scenario_connection]).
  - intros X ip. apply elem_of_elements.
  - apply scenario_parsed.
Defined.

Lemma unique_ips_right_when_lookups_succeed_witness :
  exists w,
    analyze_connections sample provider_success elements scenario_lines init = Some w
    /\ connections w = [scenario_connection]
    /\ dom (ip_locations w) = remote_ips (connections w)
    /\ forall order report,
         generate_tables order w = Some report ->
         unique_ips report = size (remote_ips (connections w)).
Proof.
  apply (unique_ips_right_when_lookups_succeed sample provider_success elements
           scenario_lines [scenario_connection] provider_success_always_succeeds).
  - intros X ip. apply elem_of_elements.
  - apply scenario_parsed.
Defined.

Lemma ip_order_is_insertion_order_witness :
  dict_ok init
  /\ dict_ok (snd (get_ip_location provider_success (txt "93.184.216.34") init))
  /\ (forall w',
        analyze_connections sample provider_success elements scenario_lines init
        = Some w' -> dict_ok w')
  /\ (forall loc,
        ip_locations init !! txt "93.184.216.34" = None ->
        fst (get_ip_location provider_success (txt "93.184.216.34") init) = Some loc ->
        items (snd (get_ip_location provider_success (txt "93.184.216.34") init))
        = (items init ++ [(txt "93.184.216.34", loc)])%list).
Proof.
  split; [exact dict_ok_init|].
  exact (ip_order_is_insertion_order sample provider_success elements scenario_lines
           init (txt "93.184.216.34") dict_ok_init).
Defined.

(** ** Ports and services *)

Lemma add_entry_lookup c ps port :
  default [] (add_entry ps c !! port)
  = (default [] (ps !! port)
     ++ if decide (remote_port c = port) then [entry_of c] else [])%list.
Proof.
  unfold add_entry. destruct (decide (remote_port c = port)) as [<-|Hne].
  - now rewrite lookup_insert_eq.
  - rewrite lookup_insert_ne by exact Hne. now rewrite app_nil_r.
Qed.

Lemma foldl_add_entry_lookup cs : forall ps port,
  default [] (foldl add_entry ps cs !! port)
  = (default [] (ps !! port)
     ++ (entry_of <$> filter (fun c => remote_port c = port) cs))%list.
Proof.
  induction cs as [|c cs IH]; intros ps port; simpl.
  - now rewrite app_nil_r.
  - rewrite IH, add_entry_lookup, <- app_assoc. f_equal.
    rewrite filter_cons.
    destruct (decide (remote_port c = port)); reflexivity.
Qed.

(** X11. [analyze_connections] groups the connections by remote port, in
    discovery order: the list at a port is the list it had before, followed
    by one entry per parsed connection to that port, in the order of the
    lines; and a port is a key afterwards exactly when it was one before or
    some connection has it. *)
Theorem port_services_grouped_in_order (py : interpreter)
    (provider : nat -> str -> response) (iter_set : gset str -> list str)
    (lines : list str) (cs : list connection) (w : wiz) (port : Z) :
  parse_netstat_output py lines = Some cs ->
  exists w',
    analyze_connections py provider iter_set lines w = Some w'
    /\ connections w' = cs
    /\ default [] (port_services w' !! port)
       = (default [] (port_services w !! port)
          ++ (entry_of <$> filter (fun c => remote_port c = port) cs))%list
    /\ (port ∈ dom (port_services w')
        <-> port ∈ dom (port_services w) \/ port ∈ remote_ports cs).
Proof.
  intros Hp. exists (analysed provider iter_set cs w).
  split; [now apply analyze_connections_parsed|].
  rewrite analysed_connections, analysed_port_services.
  split; [reflexivity|]. split.
  - apply foldl_add_entry_lookup.
  - rewrite add_entry_keys. apply elem_of_union.
Qed.

Lemma port_services_grouped_in_order_witness :
  exists w',
    analyze_connections sample provider_fail elements scenario_lines init = Some w'
    /\ connections w' = [scenario_connection]
    /\ default [] (port_services w' !! 443)
       = (default [] (port_services init !! 443)
          ++ (entry_of <$> filter (fun c => remote_port c = 443)
                                  [scenario_connection]))%list
    /\ (443 ∈ dom (port_services w')
        <-> 443 ∈ dom (port_services init) \/ 443 ∈ remote_ports [scenario_connection]).
Proof.
  exact (port_services_grouped_in_order sample provider_fail elements scenario_lines
           [scenario_connection] init 443 (scenario_parsed sample)).
Defined.

(** ** The tables after the analysis *)

Section TablesAfterAnalysis.

Variable order : gset str -> list str.

Lemma port_entries_after_analysis cs port :
  port ∈ remote_ports cs ->
  exists c rest,
    default [] (foldl add_entry ∅ cs !! port) = entry_of c :: rest
    /\ remote_port c = port
    /\ length (entry_of c :: rest)
       = length (filter (fun c' => remote_port c' = port) cs).
Proof.
  intros Hin. rewrite foldl_add_entry_lookup, lookup_empty. simpl.
  apply elem_of_list_to_set, list_elem_of_fmap in Hin as (c & -> & Hc).
  assert (Hf : c ∈ filter (fun c' => remote_port c' = remote_port c) cs)
    by (apply list_elem_of_filter; auto).
  destruct (filter (fun c' => remote_port c' = remote_port c) cs)
    as [|c0 rest] eqn:E; [inversion Hf|].
  assert (H0 : remote_port c0 = remote_port c).
  { assert (Hc0 : c0 ∈ filter (fun c' => remote_port c' = remote_port c) cs)
      by (rewrite E; constructor).
    now apply list_elem_of_filter in Hc0 as [? _]. }
  exists c0, (entry_of <$> rest). split; [reflexivity|]. split; [exact H0|].
  simpl. now rewrite length_fmap.
Qed.

Lemma port_row_after_analysis cs port :
  port ∈ remote_ports cs ->
  exists row,
    port_row_of order port (default [] (foldl add_entry ∅ cs !! port)) = Some row
    /\ pr_port row = port /\ port_row_ok cs row.
Proof.
  intros Hin.
  destruct (port_entries_after_analysis cs port Hin) as (c & rest & -> & Hc & Hlen).
  eexists. split; [reflexivity|]. simpl. split; [reflexivity|].
  unfold port_row_ok. simpl. rewrite length_take, Hc.
  simpl in Hlen. rewrite <- Hlen.
  repeat split; first [apply Nat.le_min_l | lia].
Qed.

Lemma port_rows_after_analysis cs ports :
  Forall (fun port => port ∈ remote_ports cs) ports ->
  exists rows,
    mapM (fun port =>
            port_row_of order port (default [] (foldl add_entry ∅ cs !! port)))
         ports = Some rows
    /\ pr_port <$> rows = ports
    /\ Forall (port_row_ok cs) rows.
Proof.
  induction ports as [|port ports IH]; intros Hall.
  - exists []. repeat split; constructor.
  - inversion Hall as [|? ? Hp Hps]; subst.
    destruct (IH Hps) as (rows & Hm & Hports & Hrows).
    destruct (port_row_after_analysis cs port Hp) as (row & Hr & Hport & Hok).
    exists (row :: rows). split; [|split].
    + apply mapM_Some_2. constructor; [exact Hr | now apply mapM_Some_1].
    + now rewrite fmap_cons, Hport, Hports.
    + now constructor.
Qed.

(** The report built after the analysis of a fresh object. *)
Lemma tables_report_after_analysis provider iter_set cs :
  let w := analysed provider iter_set cs init in
  exists report,
    generate_tables order w = Some report
    /\ total_connections report = length cs
    /\ unique_ports report = size (remote_ports cs)
    /\ pr_port <$> port_rows report
       = merge_sort Z.le (elements (remote_ports cs))
    /\ Forall (port_row_ok cs) (port_rows report).
Proof.
  intros w.
  assert (Hps : port_services w = foldl add_entry ∅ cs)
    by apply analysed_port_services.
  assert (Hcs : connections w = cs) by apply analysed_connections.
  assert (Hdom : dom (port_services w) = remote_ports cs).
  { rewrite Hps, add_entry_keys, dom_empty_L. now rewrite (left_id_L ∅ (∪)). }
  destruct (port_rows_after_analysis cs
              (merge_sort Z.le (elements (remote_ports cs))))
    as (rows & Hm & Hports & Hrows).
  { apply Forall_forall. intros port Hin.
    rewrite merge_sort_Permutation in Hin. now apply elem_of_elements in Hin. }
  unfold generate_tables. rewrite Hdom, Hps, Hm. simpl.
  eexists. split; [reflexivity|]. simpl. rewrite Hcs.
  repeat split; auto.
  now rewrite <- Hdom, size_dom, Hps.
Qed.


(** X12. After [analyze_connections] on a fresh object [generate_tables]
    never fails on [services[0]]: it builds a report with the number of
    connections, the number of distinct remote ports, and one row per
    distinct remote port in ascending order, each row showing the service
    that [get_service_name] gives for its port, the positive number of
    connections to that port, and at most five addresses. *)
Theorem generate_tables_after_analyze (py : interpreter)
    (provider : nat -> str -> response) (iter_set : gset str -> list str)
    (lines : list str) (cs : list connection) :
  parse_netstat_output py lines = Some cs ->
  exists w report,
    analyze_connections py provider iter_set lines init = Some w
    /\ connections w = cs
    /\ generate_tables order w = Some report
    /\ total_connections report = length (connections w)
    /\ unique_ports report = size (remote_ports (connections w))
    /\ pr_port <$> port_rows report
       = merge_sort Z.le (elements (remote_ports (connections w)))
    /\ Sorted Z.le (pr_port <$> port_rows report)
    /\ Forall (fun row =>
                 pr_service row = get_service_name (pr_port row)
                 /\ pr_count row
                    = length (filter (fun c => remote_port c = pr_port row)
                                     (connections w))
                 /\ (0 < pr_count row)%nat
                 /\ (length (pr_ips row) <= 5)%nat)
              (port_rows report).
Proof.
  intros Hparse. exists (analysed provider iter_set cs init).
  destruct (tables_report_after_analysis provider iter_set cs)
    as (report & Hr & Ht & Hu & Hp & Hrows).
  exists report. rewrite analysed_connections.
  split; [now apply analyze_connections_parsed|].
  repeat split; auto.
  rewrite Hp. apply Sorted_merge_sort. apply _.
Qed.

End TablesAfterAnalysis.

Lemma generate_tables_after_analyze_witness :
  exists w report,
    analyze_connections sample provider_fail elements scenario_lines init = Some w
    /\ connections w = [scenario_connection]
    /\ generate_tables elements w = Some report
    /\ total_connections report = length (connections w)
    /\ unique_ports report = size (remote_ports (connections w))
    /\ pr_port <$> port_rows report
       = merge_sort Z.le (elements (remote_ports (connections w)))
    /\ Sorted Z.le (pr_port <$> port_rows report)
    /\ Forall (fun row =>
                 pr_service row = get_service_name (pr_port row)
                 /\ pr_count row
                    = length (filter (fun c => remote_port c = pr_port row)
                                     (connections w))
                 /\ (0 < pr_count row)%nat
                 /\ (length (pr_ips row) <= 5)%nat)
              (port_rows report).
Proof.
  exact (generate_tables_after_analyze elements sample provider_fail elements
           scenario_lines [scenario_connection] (scenario_parsed sample)).
Defined.

(** ** The map *)

Lemma render_map_other_paths env w path fs fs' p :
  render_map env w path fs = inr fs' -> p <> path -> fs' !! p = fs !! p.
Proof.
  unfold render_map. intros H Hne.
  destruct (map_raises env); [discriminate|].
  destruct (add_markers _ _ _) as [|ms]; [discriminate|].
  destruct (match ms with [] => _ | _ => _ end) as [|lc]; [discriminate|].
  destruct (save env); try discriminate H; injection H as <-; [|reflexivity].
  unfold write_file. now rewrite lookup_insert_ne.
Qed.

Lemma generate_map_other_paths env w output_file p fs :
  p <> abspath env output_file ->
  generate_map env w output_file fs !! p = fs !! p.
Proof.
  intros Hne. unfold generate_map, write_fallback, write_file.
  destruct (FOLIUM_AVAILABLE env); simpl; [|reflexivity].
  destruct (bool_decide (ip_locations w = ∅)).
  - destruct (map_raises env); [reflexivity|].
    destruct (save env); try reflexivity. now rewrite lookup_insert_ne.
  - destruct (render_map env w (abspath env output_file) fs) as [e|fs'] eqn:Hr.
    + destruct (open_raises env); [reflexivity|]. now rewrite lookup_insert_ne.
    + pose proof (render_map_other_paths _ _ _ _ _ p Hr Hne) as Hp.
      destruct (fs' !! abspath env output_file); [exact Hp|].
      destruct (open_raises env); [exact Hp|]. now rewrite lookup_insert_ne.
Qed.

(** ** The entry point *)

(** X13. When the command fails or times out, or when none of its lines
    gives an external connection, [main] makes no request, takes no delay,
    writes no file and builds no table: the object stays as created. *)
Theorem main_without_connections (py : interpreter)
    (provider : nat -> str -> response) (iter_set : gset str -> list str)
    (env : map_env) (tables_open_raises : option str)
    (outcome : subprocess_outcome) (fs : gmap str file) :
  outcome = TimeoutExpired \/ outcome = RunError
  \/ parse_netstat_output py (run_netstat outcome) = Some [] ->
  main py provider iter_set env tables_open_raises outcome fs
  = RunResult init fs Finished.
Proof.
  intros H.
  assert (E : parse_netstat_output py (run_netstat outcome) = Some [])
    by (destruct H as [-> | [-> | H]]; auto).
  unfold main. rewrite (analyze_connections_parsed py provider iter_set _ _ _ E).
  reflexivity.
Qed.

Lemma main_without_connections_witness :
  main sample provider_success elements env_working None TimeoutExpired ∅
  = RunResult init ∅ Finished
  /\ main sample provider_success elements env_working None
          (Completed (txt "Active Connections")) ∅
     = RunResult init ∅ Finished.
Proof.
  split.
  - apply main_without_connections. left. reflexivity.
  - apply main_without_connections. right. right. reflexivity.
Defined.



(** X15. [generate_map] touches no path but the output path: every other
    file is afterwards what it was before, whatever [folium] and the file
    system do. *)
Theorem generate_map_touches_one_path (env : map_env) (w : wiz)
    (output_file p : str) (fs : gmap str file) :
  p <> abspath env output_file ->
  generate_map env w output_file fs !! p = fs !! p.
Proof. apply generate_map_other_paths. Qed.

Lemma generate_map_touches_one_path_witness :
  generate_map env_save_fails located_state (txt "network_map.html")
               {[txt "network_tables.html" := ErrorPage (txt "old")]}
    !! txt "network_tables.html"
  = ({[txt "network_tables.html" := ErrorPage (txt "old")]} : gmap str file)
      !! txt "network_tables.html".
Proof.
  apply (generate_map_touches_one_path env_save_fails located_state
           (txt "network_map.html") (txt "network_tables.html")).
  vm_compute. discriminate.
Defined.

Lemma has_coordinates_nonzero loc :
  has_coordinates loc = true
  <-> nonzero (loc_latitude loc) = true /\ nonzero (loc_longitude loc) = true.
Proof.
  unfold has_coordinates.
  destruct (nonzero (loc_latitude loc)), (nonzero (loc_longitude loc));
    simpl; intuition discriminate.
Qed.

Lemma add_markers_all env w its :
  (forall ip, marker_raises env ip = None) ->
  add_markers env w its
  = inr ((fun item => marker_of w (fst item) (snd item))
           <$> List.filter (fun item => has_coordinates (snd item)) its).
Proof.
  intros Hok. induction its as [|[ip loc] its IH]; simpl; [reflexivity|].
  destruct (has_coordinates loc); [|exact IH].
  now rewrite Hok, IH.
Qed.

Lemma items_elem w ip loc :
  (ip, loc) ∈ items w <-> ip ∈ ip_order w /\ ip_locations w !! ip = Some loc.
Proof.
  unfold items. rewrite list_elem_of_omap. split.
  - intros (k & Hk & Hf).
    destruct (ip_locations w !! k) as [l|] eqn:E; [|discriminate].
    simpl in Hf. injection Hf as <- <-. auto.
  - intros [Hin Hl]. exists ip. split; [exact Hin|]. now rewrite Hl.
Qed.

(** The markers follow the order of the keys. *)
Lemma markers_in_key_order (w : wiz) (cache : gmap str location) (l : list str) :
  sublist
    (mk_ip <$> ((fun item => marker_of w (fst item) (snd item))
                  <$> List.filter (fun item => has_coordinates (snd item))
                        (omap (fun ip => (fun loc => (ip, loc)) <$> cache !! ip) l)))
    l.
Proof.
  induction l as [|ip l IH]; [constructor|].
  cbn [omap list_omap]. destruct (cache !! ip) as [loc|]; cbn [fmap option_fmap option_map].
  - cbn [List.filter snd]. destruct (has_coordinates loc).
    + rewrite !fmap_cons. cbn [mk_ip marker_of fst]. now constructor.
    + now constructor.
  - now constructor.
Qed.

(** X16. When [folium] is available and none of its calls fails, the file
    left at the output path is a map with one marker for each cached
    address whose latitude and longitude are both non-zero, in the order in
    which the addresses entered the cache, each marker carrying the
    coordinates and the number of connections to its address, and with a
    layer control exactly when there is at least one marker. *)
Theorem generate_map_marks_located_addresses (env : map_env) (w : wiz)
    (output_file : str) (fs : gmap str file) :
  FOLIUM_AVAILABLE env = true ->
  map_raises env = None ->
  (forall ip, marker_raises env ip = None) ->
  layer_control_raises env = None ->
  save env = SaveWrites ->
  dict_ok w ->
  generate_map env w output_file fs !! abspath env output_file
  = Some (FoliumMap (expected_markers w)
                    (match expected_markers w with [] => false | _ => true end))
  /\ sublist (mk_ip <$> expected_markers w) (ip_order w)
  /\ NoDup (mk_ip <$> expected_markers w)
  /\ (forall ip loc,
        ip_locations w !! ip = Some loc ->
        nonzero (loc_latitude loc) = true -> nonzero (loc_longitude loc) = true ->
        marker_of w ip loc ∈ expected_markers w)
  /\ Forall (fun m =>
               exists loc,
                 ip_locations w !! mk_ip m = Some loc
                 /\ nonzero (loc_latitude loc) = true
                 /\ nonzero (loc_longitude loc) = true
                 /\ mk_latitude m = loc_latitude loc
                 /\ mk_longitude m = loc_longitude loc
                 /\ mk_connections m
                    = length (filter (fun c => remote_ip c = mk_ip m) (connections w)))
            (expected_markers w).
Proof.
  intros Hf Hmap Hmk Hlc Hsave [Hnd Hkeys].
  assert (Hsub : sublist (mk_ip <$> expected_markers w) (ip_order w))
    by apply markers_in_key_order.
  split; [|split; [exact Hsub|split; [|split]]].
  - unfold generate_map. rewrite Hf. simpl.
    destruct (bool_decide (ip_locations w = ∅)) eqn:He.
    + apply bool_decide_eq_true in He.
      assert (Hnone : items w = []).
      { destruct (items w) as [|[ip loc] its] eqn:E; [reflexivity|].
        assert (Hin : (ip, loc) ∈ items w) by (rewrite E; constructor).
        apply items_elem in Hin as [_ Hin]. rewrite He, lookup_empty in Hin.
        discriminate. }
      unfold expected_markers. rewrite Hnone. simpl.
      rewrite Hmap, Hsave. apply lookup_insert_eq.
    + unfold render_map. rewrite Hmap, (add_markers_all _ _ _ Hmk), Hsave.
      fold (expected_markers w).
      destruct (expected_markers w) as [|m ms]; [|rewrite Hlc];
        unfold write_file; rewrite lookup_insert_eq; apply lookup_insert_eq.
  - eapply sublist_NoDup; eassumption.
  - intros ip loc Hl Hlat Hlon. unfold expected_markers.
    apply list_elem_of_fmap. exists (ip, loc). split; [reflexivity|].
    apply list_elem_of_In, filter_In. split.
    + apply list_elem_of_In, items_elem. split; [|exact Hl].
      apply Hkeys. eauto.
    + now apply has_coordinates_nonzero.
  - unfold expected_markers. apply Forall_forall. intros m Hin.
    apply list_elem_of_fmap in Hin as ([ip loc] & -> & Hin).
    apply list_elem_of_In, filter_In in Hin as [Hin Hc].
    apply list_elem_of_In, items_elem in Hin as [_ Hin].
    apply has_coordinates_nonzero in Hc as [Hlat Hlon].
    exists loc. simpl in *. auto 10.
Qed.

Lemma dict_ok_located : dict_ok located_state.
Proof.
  split; [apply NoDup_singleton|]. intros ip.
  change (ip_order located_state) with [txt "93.184.216.34"].
  change (ip_locations located_state)
    with ({[txt "93.184.216.34" := scenario_location]} : gmap str location).
  rewrite list_elem_of_singleton. split.
  - intros ->. rewrite lookup_singleton_eq. eauto.
  - intros [loc [<- _]%lookup_singleton_Some]. reflexivity.
Qed.

Lemma generate_map_marks_located_addresses_witness :
  generate_map env_working located_state (txt "network_map.html") ∅
    !! abspath env_working (txt "network_map.html")
  = Some (FoliumMap (expected_markers located_state)
                    (match expected_markers located_state with
                     | [] => false | _ => true end))
  /\ sublist (mk_ip <$> expected_markers located_state) (ip_order located_state)
  /\ NoDup (mk_ip <$> expected_markers located_state)
  /\ (forall ip loc,
        ip_locations located_state !! ip = Some loc ->
        nonzero (loc_latitude loc) = true -> nonzero (loc_longitude loc) = true ->
        marker_of located_state ip loc ∈ expected_markers located_state)
  /\ Forall (fun m =>
               exists loc,
                 ip_locations located_state !! mk_ip m = Some loc
                 /\ nonzero (loc_latitude loc) = true
                 /\ nonzero (loc_longitude loc) = true
                 /\ mk_latitude m = loc_latitude loc
                 /\ mk_longitude m = loc_longitude loc
                 /\ mk_connections m
                    = length (filter (fun c => remote_ip c = mk_ip m)
                                     (connections located_state)))
            (expected_markers located_state).
Proof.
  apply (generate_map_marks_located_addresses env_working located_state
           (txt "network_map.html") ∅); try reflexivity.
  exact dict_ok_located.
Defined.

(** ** Countries and services *)

Lemma total_count_insert_fresh (m : gmap str nat) k v :
  m !! k = None -> total_count (<[k := v]> m) = (v + total_count m)%nat.
Proof.
  intros Hk. unfold total_count.
  rewrite map_fold_insert_L; [reflexivity | intros; lia | exact Hk].
Qed.

Lemma total_count_insert (m : gmap str nat) k v :
  (total_count (<[k := v]> m) + default 0%nat (m !! k) = v + total_count m)%nat.
Proof.
  destruct (m !! k) as [v0|] eqn:Hk; simpl.
  - rewrite <- (insert_delete_id m k v0 Hk) at 2.
    rewrite <- (insert_delete_eq m k v).
    rewrite !total_count_insert_fresh by apply lookup_delete_eq. lia.
  - rewrite total_count_insert_fresh by exact Hk. lia.
Qed.

Lemma total_count_foldl cache cs : forall counts,
  total_count (foldl (count_country cache) counts cs)
  = (total_count counts + length cs)%nat.
Proof.
  induction cs as [|c cs IH]; intros counts; simpl; [lia|].
  rewrite IH. unfold count_country.
  pose proof (total_count_insert counts (country_of cache (remote_ip c))
                (default 0%nat (counts !! country_of cache (remote_ip c)) + 1)).
  lia.
Qed.

(** X17. The counts by country add up to the number of connections: every
    connection is counted once, under its cached country or under
    "Unknown". *)
Theorem country_counts_add_up (w : wiz) :
  total_count (country_counts w) = length (connections w).
Proof.
  unfold country_counts. rewrite total_count_foldl.
  unfold total_count. now rewrite map_fold_empty.
Qed.

Lemma PORT_SERVICES_names_known :
  Forall (fun item => snd item <> txt "Unknown") PORT_SERVICES_items.
Proof. apply (bool_decide_unpack _). vm_compute. exact I. Qed.

(** X18. The name "Unknown" is unambiguous: [get_service_name] answers
    "Unknown" exactly for the ports that the static table does not list. *)
Theorem unknown_service_means_unlisted (port : Z) :
  get_service_name port = txt "Unknown" <-> port ∉ (PORT_SERVICES_items.*1).
Proof.
  unfold get_service_name, PORT_SERVICES. split.
  - intros Hu Hin. apply list_elem_of_fmap in Hin as ([p name] & -> & Hin).
    change ((p, name).1) with p in Hu.
    rewrite (elem_of_list_to_map_1 _ _ _ PORT_SERVICES_keys_distinct Hin) in Hu.
    simpl in Hu.
    pose proof (proj1 (Forall_forall _ _) PORT_SERVICES_names_known _ Hin) as Hn.
    now apply Hn.
  - intros Hout. now rewrite (not_elem_of_list_to_map_1 _ _ Hout).
Qed.

(** ** When every lookup fails *)

Section AllFail.

Variable py : interpreter.
Variable provider : nat -> str -> response.
Variable iter_set : gset str -> list str.
Hypothesis provider_fails : never_succeeds provider.

Lemma get_ip_location_fails_cache ip w :
  ip_locations (snd (get_ip_location provider ip w)) = ip_locations w.
Proof.
  destruct (ip_locations w !! ip) as [l|] eqn:Hc.
  - now rewrite (get_ip_location_hit _ _ _ _ Hc).
  - rewrite (get_ip_location_miss_cache _ _ _ Hc).
    destruct (fst (get_ip_location provider ip w)) as [loc|] eqn:Hr; [|reflexivity].
    apply get_ip_location_result in Hr as [Hr | (_ & data & Ha & Hs & _)];
      [congruence|].
    pose proof (provider_fails (network_calls (trace w)) (api_url ip)) as Hf.
    rewrite Ha in Hf. simpl in Hf. contradiction.
Qed.

Lemma resolve_all_fails_cache ips : forall w,
  ip_locations (resolve_all provider w ips) = ip_locations w.
Proof.
  induction ips as [|ip ips IH]; intros w; [reflexivity|].
  change (resolve_all provider w (ip :: ips))
    with (resolve_all provider (snd (get_ip_location provider ip w)) ips).
  rewrite IH. apply get_ip_location_fails_cache.
Qed.

Lemma count_all_unknown cs :
  count (fun conn => bool_decide (country_of ∅ (remote_ip conn) = txt "Unknown")) cs
  = length cs.
Proof.
  induction cs as [|c cs IH]; simpl; [reflexivity|].
  rewrite IH. unfold country_of. now rewrite lookup_empty.
Qed.

Lemma count_none_other country cs :
  country <> txt "Unknown" ->
  count (fun conn => bool_decide (country_of ∅ (remote_ip conn) = country)) cs
  = 0%nat.
Proof.
  intros Hne. induction cs as [|c cs IH]; simpl; [reflexivity|].
  rewrite IH. unfold country_of. rewrite lookup_empty.
  rewrite bool_decide_eq_false_2 by congruence. reflexivity.
Qed.

(** X19. When every lookup fails, [analyze_connections] on a fresh object
    leaves the cache empty, every connection is counted under the country
    "Unknown", and the tables report zero unique addresses. *)
Theorem all_lookups_fail (lines : list str) (cs : list connection) :
  parse_netstat_output py lines = Some cs ->
  exists w,
    analyze_connections py provider iter_set lines init = Some w
    /\ connections w = cs
    /\ ip_locations w = ∅
    /\ default 0%nat (country_counts w !! txt "Unknown") = length (connections w)
    /\ (forall country, country <> txt "Unknown" -> country_counts w !! country = None)
    /\ forall order report,
         generate_tables order w = Some report -> unique_ips report = 0%nat.
Proof.
  intros Hp. exists (analysed provider iter_set cs init).
  split; [now apply analyze_connections_parsed|].
  split; [apply analysed_connections|].
  set (w := analysed provider iter_set cs init).
  assert (He : ip_locations w = ∅).
  { subst w. rewrite (proj1 (analysed_lookups provider iter_set cs init)).
    now rewrite resolve_all_fails_cache. }
  split; [exact He|].
  assert (Hcount : forall country,
            default 0%nat (country_counts w !! country)
            = count (fun conn => bool_decide (country_of ∅ (remote_ip conn) = country))
                    (connections w)).
  { intros country. unfold country_counts. rewrite He.
    now rewrite foldl_count_country, lookup_empty. }
  split; [now rewrite Hcount, count_all_unknown|]. split.
  - intros country Hne.
    destruct (country_counts w !! country) as [n|] eqn:Hn; [|reflexivity].
    assert (Hpos : (0 < n)%nat).
    { unfold country_counts in Hn.
      apply (foldl_count_country_positive _ _ ∅) in Hn; [exact Hn|].
      intros c m Hc. rewrite lookup_empty in Hc. discriminate. }
    specialize (Hcount country). rewrite Hn in Hcount. simpl in Hcount.
    rewrite (count_none_other _ _ Hne) in Hcount. lia.
  - intros order report Hr.
    apply generate_tables_summary in Hr as (_ & -> & _).
    rewrite He. apply map_size_empty.
Qed.

End AllFail.

Lemma all_lookups_fail_witness :
  exists w,
    analyze_connections sample provider_fail elements scenario_lines init = Some w
    /\ connections w = [scenario_connection]
    /\ ip_locations w = ∅
    /\ default 0%nat (country_counts w !! txt "Unknown") = length (connections w)
    /\ (forall country, country <> txt "Unknown" -> country_counts w !! country = None)
    /\ forall order report,
         generate_tables order w = Some report -> unique_ips report = 0%nat.
Proof.
  exact (all_lookups_fail sample provider_fail elements provider_fail_never_succeeds
           scenario_lines [scenario_connection] (scenario_parsed sample)).
Defined.
